(** * Heat-wave dashboard (appp.py): the aggregation pipeline and its callbacks

    A shallow embedding of [src/appp.py].  A pandas [DataFrame] is the list
    of its rows, in row order; the pandas operations the program uses
    (boolean-mask selection, [groupby(...).size()], [groupby(...).mean()],
    [reset_index], left [merge], [fillna], [Series.mean]) are given as list
    functions in [Module Pandas]; the functions of the program follow, under
    their own names; the theorems come last.

    Numbers.  The numeric columns are float64: readings, means and
    differences are binary64 values ([float], with its [nan], infinities
    and rounding).  pandas computes its two means by different summations:
    [Series.mean] sums with numpy's pairwise summation, [groupby(...).mean]
    with a compensated (Kahan) summation; both are written out in
    [Module Pandas], generically in the arithmetic, so that they can be run
    on rationals too.  The model follows numpy and pandas without the
    optional bottleneck package.

    Strings are byte strings; for UTF-8 text their byte-wise order is the
    code-point order Python uses to sort [str] keys.  [str.upper] moves the
    ASCII letters itself and takes the upper case of the characters beyond
    ASCII from a case table, a parameter like the locale of [strftime].

    Frames are objects.  The aggregators are given twice: as functions of
    the rows of [df], and statement by statement on references into a heap
    of frames, where [df[mask]] and [.copy()] build new objects and a
    column assignment writes into the object it is given.

    The rows are those of the data model: the city is text, the year an
    integer, the date a calendar date, the readings are float64; the
    heat-wave flag is whatever cell the sheet holds. *)

From Stdlib Require Import String Ascii Bool Arith ZArith QArith Floats.
From Stdlib Require Import List Lia Sorted DecimalString.
From Stdlib Require Import Permutation DecimalPos DecimalZ.
Import ListNotations.

Set Warnings "-inexact-float".

Set Implicit Arguments.

(* ===================================================================== *)
(** ** Python values: outcomes, [str], [str.upper] *)
(* ===================================================================== *)

Module Python.

(** The error classes the specification names.  The source has no [raise]
    statement; an outcome says whether a call returned or raised. *)
Inductive error : Type :=
| LoadError
| InvalidSelectionError
| UnknownCityError.

Inductive outcome (A : Type) : Type :=
| Returned (a : A)
| Raised (e : error).
Arguments Returned {A} a.
Arguments Raised {A} e.

Definition bind {A B} (m : outcome A) (k : A -> outcome B) : outcome B :=
  match m with
  | Returned a => k a
  | Raised e => Raised e
  end.

(** A cell of the spreadsheet as [read_excel] hands it over: text, a
    boolean, an integer, a float, or an empty cell (the float [nan]).  A
    finite float is kept as [repr] writes it: its sign, the digits before
    the point or the exponent, and the rest (".0", ".5", "e+16"). *)
Inductive cell : Type :=
| CStr (s : string)
| CBool (b : bool)
| CInt (z : Z)
| CFloat (neg : bool) (whole : N) (tail : string)
| CInf (neg : bool)
| CNaN.

(** [str(n)] for an [int]. *)
Definition str_int (z : Z) : string := NilZero.string_of_int (Z.to_int z).

(** [str(x)]. *)
Definition str (x : cell) : string :=
  match x with
  | CStr s => s
  | CBool true => "True"
  | CBool false => "False"
  | CInt z => str_int z
  | CFloat neg whole tail =>
      ((if neg then "-" else "") ++
       NilZero.string_of_uint (N.to_uint whole) ++ tail)%string
  | CInf true => "-inf"
  | CInf false => "inf"
  | CNaN => "nan"
  end.

(** [str.upper] on an ASCII character: the letters a..z move to A..Z. *)
Definition upper_ascii (c : ascii) : ascii :=
  let n := nat_of_ascii c in
  if (97 <=? n)%nat && (n <=? 122)%nat then ascii_of_nat (n - 32) else c.

(** The characters beyond ASCII.  In UTF-8 every byte of such a character
    is 128 or more, and the bytes of ASCII characters are below 128, so a
    text falls into runs of ASCII characters and runs of others.
    [str.upper] works character by character; what it makes of the
    characters beyond ASCII is a table of the Unicode version the
    interpreter was built with, and is taken here as a parameter: the
    upper case of a run of such characters. *)
Definition Casing : Type := string -> string.

Definition is_ascii (c : ascii) : bool := (nat_of_ascii c <? 128)%nat.

Definition upper_run (uc : Casing) (run : string) : string :=
  match run with
  | EmptyString => EmptyString
  | String _ _ => uc run
  end.

(** [s.upper()], where [run] holds the bytes beyond ASCII read since the
    last ASCII character. *)
Fixpoint upper_from (uc : Casing) (run s : string) : string :=
  match s with
  | EmptyString => upper_run uc run
  | String c s' =>
      if is_ascii c
      then (upper_run uc run ++
            String (upper_ascii c) (upper_from uc EmptyString s'))%string
      else upper_from uc (run ++ String c EmptyString)%string s'
  end.

Definition upper (uc : Casing) (s : string) : string :=
  upper_from uc EmptyString s.

End Python.
Export Python.

Notation "x <- m ;; k" := (bind m (fun x => k))
  (at level 61, m at next level, right associativity).

(* ===================================================================== *)
(** ** Keys and their order *)
(* ===================================================================== *)

(** The order pandas sorts group keys by: integers by value, strings as
    Python compares [str], tuples of keys lexicographically. *)
Class Ord (K : Type) : Type := cmp : K -> K -> comparison.

#[export] Instance Ord_Z : Ord Z := Z.compare.
#[export] Instance Ord_string : Ord string := String.compare.
#[export] Instance Ord_pair {A B : Type} `{Ord A} `{Ord B} : Ord (A * B) :=
  fun p q =>
    match cmp (fst p) (fst q) with
    | Eq => cmp (snd p) (snd q)
    | c => c
    end.

Class OrdLaws (K : Type) `{Ord K} : Prop := {
  cmp_eq : forall a b : K, cmp a b = Eq <-> a = b;
  cmp_antisym : forall a b : K, cmp b a = CompOpp (cmp a b);
  cmp_trans : forall a b c : K, cmp a b = Lt -> cmp b c = Lt -> cmp a c = Lt
}.
Arguments OrdLaws K {_}.

Definition key_lt {K : Type} `{Ord K} (a b : K) : Prop := cmp a b = Lt.

Definition key_eqb {K : Type} `{Ord K} (a b : K) : bool :=
  match cmp a b with Eq => true | _ => false end.

(* ===================================================================== *)
(** ** pandas *)
(* ===================================================================== *)

Module Pandas.

(** *** The two summations, in any arithmetic *)

Section Summation.
Context {F : Type}.
Variable add sub : F -> F -> F.
Variable is_nan : F -> bool.

(** [for x in xs: res += x]. *)
Definition sum_loop (res : F) (xs : list F) : F := fold_left add xs res.

Definition lanes : Type := F * F * F * F * F * F * F * F.

(** The unrolled loop of numpy's pairwise summation: eight running sums,
    each taking every eighth value, while eight values are left. *)
Fixpoint sum_lanes (r : lanes) (xs : list F) : lanes * list F :=
  match xs with
  | x0 :: x1 :: x2 :: x3 :: x4 :: x5 :: x6 :: x7 :: rest =>
      let '(r0, r1, r2, r3, r4, r5, r6, r7) := r in
      sum_lanes (add r0 x0, add r1 x1, add r2 x2, add r3 x3,
                 add r4 x4, add r5 x5, add r6 x6, add r7 x7) rest
  | _ => (r, xs)
  end.

(** A block of at most 128 values: fewer than eight are added one by one
    to [start]; otherwise the eight running sums are added up in pairs and
    the values left over added one by one. *)
Definition block_sum (start : F) (xs : list F) : F :=
  match xs with
  | x0 :: x1 :: x2 :: x3 :: x4 :: x5 :: x6 :: x7 :: rest =>
      let '((r0, r1, r2, r3, r4, r5, r6, r7), tail) :=
        sum_lanes (x0, x1, x2, x3, x4, x5, x6, x7) rest in
      sum_loop (add (add (add r0 r1) (add r2 r3))
                    (add (add r4 r5) (add r6 r7))) tail
  | _ => sum_loop start xs
  end.

(** More than 128 values are split near the middle, at a multiple of
    eight, and the sums of the halves added.  [fuel] bounds the depth of
    the splitting. *)
Fixpoint pairwise_sum_from (fuel : nat) (start : F) (xs : list F) : F :=
  match fuel with
  | O => block_sum start xs
  | S fuel' =>
      if (length xs <=? 128)%nat then block_sum start xs
      else
        let n2 := (length xs / 2)%nat in
        let n2 := (n2 - n2 mod 8)%nat in
        add (pairwise_sum_from fuel' start (firstn n2 xs))
            (pairwise_sum_from fuel' start (skipn n2 xs))
  end.

(** numpy's sum of a float64 array. *)
Definition pairwise_sum (start : F) (xs : list F) : F :=
  pairwise_sum_from (length xs) start xs.

(** One value added to a compensated sum, as in pandas' [group_mean]:
    the running sum and the compensation, which is reset when it is not a
    number. *)
Definition kahan_step (zero : F) (st : F * F) (val : F) : F * F :=
  let '(sumx, compensation) := st in
  let y := sub val compensation in
  let t := add sumx y in
  let compensation := sub (sub t sumx) y in
  let compensation := if is_nan compensation then zero else compensation in
  (t, compensation).

Definition kahan_sum (zero : F) (xs : list F) : F :=
  fst (fold_left (kahan_step zero) xs (zero, zero)).
End Summation.

(** *** float64 *)

(** A count as a float64. *)
Definition of_count (n : nat) : float :=
  PrimFloat.of_uint63 (Uint63.of_Z (Z.of_nat n)).

(** [values.sum()] of a float64 array; numpy starts the sum at -0.0. *)
Definition np_sum (xs : list float) : float :=
  pairwise_sum PrimFloat.add (-0)%float xs.

(** [Series.mean()], with the default [skipna=True]: missing values are
    counted out and summed as 0; [nan] when no value is left. *)
Definition series_mean (xs : list float) : float :=
  let count := length (filter (fun x => negb (PrimFloat.is_nan x)) xs) in
  let the_sum :=
    np_sum (map (fun x => if PrimFloat.is_nan x then 0%float else x) xs) in
  if (count =? 0)%nat then nan else (the_sum / of_count count)%float.

(** The mean of one group of [groupby(...).mean()]: missing values are
    skipped; [nan] when no value is left. *)
Definition groupby_mean (xs : list float) : float :=
  let vals := filter (fun x => negb (PrimFloat.is_nan x)) xs in
  if (length vals =? 0)%nat then nan
  else (kahan_sum PrimFloat.add PrimFloat.sub PrimFloat.is_nan 0%float vals
        / of_count (length vals))%float.

Section GroupBy.
Context {K R : Type} `{Ord K}.
Variable key : R -> K.

(** Put one row in front of its group; a new key opens a group at its
    place in key order. *)
Fixpoint add_row (r : R) (gs : list (K * list R)) : list (K * list R) :=
  match gs with
  | [] => [(key r, [r])]
  | (k, rs) :: gs' =>
      match cmp (key r) k with
      | Lt => (key r, [r]) :: gs
      | Eq => (k, r :: rs) :: gs'
      | Gt => (k, rs) :: add_row r gs'
      end
  end.

(** [df.groupby(key)] with the defaults [sort=True]: the groups in
    ascending key order, each with its rows in frame order; only keys
    that occur have a group. *)
Fixpoint groupby (rows : list R) : list (K * list R) :=
  match rows with
  | [] => []
  | r :: rows' => add_row r (groupby rows')
  end.

(** [.size().reset_index(name=...)]: one row per group, key and count. *)
Definition size (gs : list (K * list R)) : list (K * nat) :=
  map (fun g => (fst g, length (snd g))) gs.

(** [[col].mean().reset_index()]: one row per group, key and mean. *)
Definition group_mean (col : R -> float) (gs : list (K * list R))
  : list (K * float) :=
  map (fun g => (fst g, groupby_mean (map col (snd g)))) gs.

(** The rows of the group of key [k], none if there is no such group. *)
Fixpoint group_of (k : K) (gs : list (K * list R)) : list R :=
  match gs with
  | [] => []
  | (k', rs) :: gs' => if key_eqb k' k then rs else group_of k gs'
  end.
End GroupBy.

(** [sorted(series.unique())]. *)
Definition sorted_unique {K : Type} `{Ord K} (ks : list K) : list K :=
  map fst (groupby (fun k => k) ks).

(** [left.merge(right, on=key, how="left")] for a one-column left frame:
    every left row in order, once for each right row with its key, or
    once with a missing value when there is none. *)
Definition merge_left {V : Type} (left : list string)
    (right : list (string * V)) : list (string * option V) :=
  flat_map
    (fun m =>
       match filter (fun kv => String.eqb (fst kv) m) right with
       | [] => [(m, None)]
       | hits => map (fun kv => (m, Some (snd kv))) hits
       end)
    left.

(** [.fillna({col: 0})]. *)
Definition fillna0 (rows : list (string * option nat)) : list (string * nat) :=
  map (fun kv => (fst kv, match snd kv with Some n => n | None => 0%nat end))
      rows.

End Pandas.
Export Pandas.

(* ===================================================================== *)
(** ** Data model *)
(* ===================================================================== *)

Inductive Month : Type :=
| Jan | Feb | Mar | Apr | May | Jun | Jul | Aug | Sep | Oct | Nov | Dec.

Definition month_number (m : Month) : Z :=
  match m with
  | Jan => 1 | Feb => 2 | Mar => 3 | Apr => 4 | May => 5 | Jun => 6
  | Jul => 7 | Aug => 8 | Sep => 9 | Oct => 10 | Nov => 11 | Dec => 12
  end.

Definition months : list Month :=
  [Jan; Feb; Mar; Apr; May; Jun; Jul; Aug; Sep; Oct; Nov; Dec].

(** A value of the [index] column after [pd.to_datetime]: a calendar date. *)
Record Timestamp : Type := mkTimestamp {
  ts_year : Z;
  ts_month : Month;
  ts_day : Z
}.

#[export] Instance Ord_Timestamp : Ord Timestamp :=
  fun a b =>
    cmp (ts_year a, (month_number (ts_month a), ts_day a))
        (ts_year b, (month_number (ts_month b), ts_day b)).

(** [LC_TIME]: the full month names [strftime("%B")] prints. *)
Definition Locale : Type := Month -> string.

(** The locale of a Python process that never calls [locale.setlocale];
    the program does not call it. *)
Definition C_locale : Locale :=
  fun m =>
    match m with
    | Jan => "January" | Feb => "February" | Mar => "March"
    | Apr => "April" | May => "May" | Jun => "June"
    | Jul => "July" | Aug => "August" | Sep => "September"
    | Oct => "October" | Nov => "November" | Dec => "December"
    end%string.

(** A locale with other month names (Brazilian Portuguese, ASCII forms). *)
Definition pt_BR : Locale :=
  fun m =>
    match m with
    | Jan => "janeiro" | Feb => "fevereiro" | Mar => "marco"
    | Apr => "abril" | May => "maio" | Jun => "junho"
    | Jul => "julho" | Aug => "agosto" | Sep => "setembro"
    | Oct => "outubro" | Nov => "novembro" | Dec => "dezembro"
    end%string.

(** [ts.strftime("%B")]. *)
Definition strftime_B (lc : Locale) (t : Timestamp) : string :=
  lc (ts_month t).

(** One row of the sheet as read, before [load_data] touches it: the
    columns of the data model, and the flag as the cell the sheet holds. *)
Module RawRow.
Record t : Type := mk {
  cidade : string;
  index : Timestamp;
  year : Z;
  tempMax : float;
  tempMed : float;
  tempMin : float;
  isHW : cell;
  Lat : float;
  Long : float
}.
End RawRow.

(** One row of the global frame [df]. *)
Module Row.
Record t : Type := mk {
  cidade : string;
  index : Timestamp;
  year : Z;
  tempMax : float;
  tempMed : float;
  tempMin : float;
  isHW : string;
  Lat : float;
  Long : float
}.
End Row.

Definition Sheet : Type := list RawRow.t.
Definition DataFrame : Type := list Row.t.

(** Rows of the frames the aggregators return. *)
Record SummaryRow : Type := mkSummaryRow {
  hs_cidade : string;
  hs_year : Z;
  dias_hw : nat
}.

Record AnomalyRow : Type := mkAnomalyRow {
  an_year : Z;
  an_tempMed : float;
  anomalia : float
}.

Record MonthlyRow : Type := mkMonthlyRow {
  mes : string;
  frequencia : nat
}.

(** Figures, as far as the data they carry. *)
Record Scatter : Type := mkScatter {
  sc_x : list Timestamp;
  sc_y : list float;
  sc_name : string;
  sc_color : string
}.

Record TempFigure : Type := mkTempFigure {
  tf_traces : list Scatter;
  tf_title : string
}.

Record PolarFigure : Type := mkPolarFigure {
  pf_r : list nat;
  pf_theta : list string;
  pf_title : string
}.

(* ===================================================================== *)
(** ** The program *)
(* ===================================================================== *)

Open Scope string_scope.

(** [load_data], from the sheet [read_excel] returned, under the case
    table [uc]:
    [df["isHW"].apply(lambda x: str(x).upper())]; the [index] column is a
    date already, which [pd.to_datetime] keeps. *)
Definition load_row (uc : Casing) (r : RawRow.t) : Row.t :=
  {| Row.cidade := RawRow.cidade r;
     Row.index := RawRow.index r;
     Row.year := RawRow.year r;
     Row.tempMax := RawRow.tempMax r;
     Row.tempMed := RawRow.tempMed r;
     Row.tempMin := RawRow.tempMin r;
     Row.isHW := upper uc (str (RawRow.isHW r));
     Row.Lat := RawRow.Lat r;
     Row.Long := RawRow.Long r |}.

Definition load_data (uc : Casing) (sheet : Sheet) : outcome DataFrame :=
  Returned (map (load_row uc) sheet).

(** The masks [df["isHW"] == "TRUE"], [df["cidade"] == cidade] and
    [df["year"] == ano]. *)
Definition is_hw (r : Row.t) : bool := Row.isHW r =? "TRUE".
Definition in_city (cidade : string) (r : Row.t) : bool := Row.cidade r =? cidade.
Definition in_year (ano : Z) (r : Row.t) : bool := (Row.year r =? ano)%Z.

(** [calculate_hw_summary(df)]. *)
Definition calculate_hw_summary (df : DataFrame) : outcome (list SummaryRow) :=
  let df_hw := filter is_hw df in
  let df_hw_grouped :=
    size (groupby (fun r => (Row.cidade r, Row.year r)) df_hw) in
  Returned
    (map (fun g => mkSummaryRow (fst (fst g)) (snd (fst g)) (snd g))
         df_hw_grouped).

(** [calculate_anomalies(df, cidade)]. *)
Definition calculate_anomalies (df : DataFrame) (cidade : string)
  : outcome (list AnomalyRow) :=
  let baseline := series_mean (map Row.tempMed (filter (in_city cidade) df)) in
  let df_anomalia :=
    group_mean Row.tempMed (groupby Row.year (filter (in_city cidade) df)) in
  Returned
    (map (fun g => mkAnomalyRow (fst g) (snd g) (snd g - baseline)%float)
         df_anomalia).

Definition all_months : list string :=
  ["January"; "February"; "March"; "April"; "May"; "June";
   "July"; "August"; "September"; "October"; "November"; "December"].

(** [calculate_hw_monthly(df, cidade, ano)], run under the locale [lc].
    [dff] is a copy, so the column [mes] is added to the copy only; it is
    carried here beside each row. *)
Definition calculate_hw_monthly (lc : Locale) (df : DataFrame)
    (cidade : string) (ano : Z) : outcome (list MonthlyRow) :=
  let dff :=
    filter (fun r => in_city cidade r && in_year ano r && is_hw r) df in
  let dff := map (fun r => (r, strftime_B lc (Row.index r))) dff in
  let monthly_counts := size (groupby snd dff) in
  let monthly_counts := fillna0 (merge_left all_months monthly_counts) in
  Returned (map (fun kv => mkMonthlyRow (fst kv) (snd kv)) monthly_counts).

(** The frame [dff] of [update_temp_plot]: the daily rows of one city and
    year ([filterDaily] in the specification). *)
Definition filterDaily (df : DataFrame) (cidade : string) (ano : Z)
  : DataFrame :=
  filter (fun r => in_city cidade r && in_year ano r) df.

(** [update_temp_plot(cidade, ano)] over the global [df]. *)
Definition update_temp_plot (df : DataFrame) (cidade : string) (ano : Z)
  : outcome TempFigure :=
  let dff := filterDaily df cidade ano in
  Returned
    {| tf_traces :=
         [ mkScatter (map Row.index dff) (map Row.tempMax dff) "Máxima" "red";
           mkScatter (map Row.index dff) (map Row.tempMed dff) "Média" "blue";
           mkScatter (map Row.index dff) (map Row.tempMin dff) "Mínima" "green" ];
       tf_title := "Temperaturas em " ++ cidade ++ " (" ++ str_int ano ++ ")" |}.

(** [update_polar_plot(cidade, ano)] over the global [df]. *)
Definition update_polar_plot (lc : Locale) (df : DataFrame)
    (cidade : string) (ano : Z) : outcome PolarFigure :=
  df_polar <- calculate_hw_monthly lc df cidade ano ;;
  Returned
    {| pf_r := map frequencia df_polar;
       pf_theta := map mes df_polar;
       pf_title :=
         "Frequência de Ondas de Calor em " ++ cidade ++ " - " ++ str_int ano |}.

(** The module-level lists [cidades] and [anos]: the values the dropdowns
    and the slider offer. *)
Definition cidades (df : DataFrame) : list string :=
  sorted_unique (map Row.cidade df).

Definition anos (df : DataFrame) : list Z :=
  sorted_unique (map Row.year df).

(* ===================================================================== *)
(** ** Vocabulary of the properties *)
(* ===================================================================== *)

(** The heat-wave days of a city and year: the rows of that city and year
    whose flag is true. *)
Definition hw_days (df : DataFrame) (cidade : string) (ano : Z) : nat :=
  length (filter (fun r => is_hw r && in_city cidade r && in_year ano r) df).

Definition summary_key (row : SummaryRow) : string * Z :=
  (hs_cidade row, hs_year row).

(** City first, then year. *)
Definition city_year_lt (a b : string * Z) : Prop :=
  (fst a <? fst b)%string = true \/ (fst a = fst b /\ (snd a < snd b)%Z).

(** The mean of [tempMed] over the rows of a city, and over those of one
    of its years. *)
Definition baseline_of (df : DataFrame) (cidade : string) : float :=
  series_mean (map Row.tempMed (filter (in_city cidade) df)).

Definition year_mean (df : DataFrame) (cidade : string) (ano : Z) : float :=
  groupby_mean
    (map Row.tempMed
         (filter (fun r => in_city cidade r && in_year ano r) df)).

(** The readings of a city, in frame order. *)
Definition city_readings (df : DataFrame) (cidade : string) : list float :=
  map Row.tempMed (filter (in_city cidade) df).

(** The sum of rationals. *)
Definition exact_sum (xs : list Q) : Q := fold_right Qplus 0%Q xs.

(** Ascending timestamps. *)
Definition ts_le (a b : Timestamp) : Prop := cmp a b <> Gt.

(** The rows [calculate_hw_monthly] counts: city, year and flag. *)
Definition hw_selected (cidade : string) (ano : Z) (r : Row.t) : bool :=
  in_city cidade r && in_year ano r && is_hw r.

(** The selected rows whose derived month name is [m]. *)
Definition hw_named (lc : Locale) (df : DataFrame) (cidade : string)
    (ano : Z) (m : string) : nat :=
  length (filter (fun r => hw_selected cidade ano r &&
                           (strftime_B lc (Row.index r) =? m)) df).

(** The selected rows dated in the calendar month [mo]. *)
Definition hw_in_month (df : DataFrame) (cidade : string) (ano : Z)
    (mo : Month) : nat :=
  length (filter (fun r => hw_selected cidade ano r &&
                           (month_number (ts_month (Row.index r)) =?
                            month_number mo)%Z) df).

(** One of the twelve English month names. *)
Definition canonical (m : string) : bool := existsb (String.eqb m) all_months.

(** The rows of [l1] are rows of [l2], in the order [l2] has them. *)
Inductive Subseq {A : Type} : list A -> list A -> Prop :=
| Subseq_nil : Subseq [] []
| Subseq_skip (x : A) (l1 l2 : list A) : Subseq l1 l2 -> Subseq l1 (x :: l2)
| Subseq_keep (x : A) (l1 l2 : list A) : Subseq l1 l2 -> Subseq (x :: l1) (x :: l2).

(** Two bytes that are the same ASCII letter, in either case, or the same
    byte. *)
Definition same_letter (a b : ascii) : Prop :=
  a = b \/
  ((65 <= nat_of_ascii a <= 90)%nat /\ nat_of_ascii b = (nat_of_ascii a + 32)%nat) \/
  ((65 <= nat_of_ascii b <= 90)%nat /\ nat_of_ascii a = (nat_of_ascii b + 32)%nat).

(** Equal strings, case of ASCII letters apart. *)
Fixpoint eq_ignore_case (s t : string) : Prop :=
  match s, t with
  | EmptyString, EmptyString => True
  | String a s', String b t' => same_letter a b /\ eq_ignore_case s' t'
  | _, _ => False
  end.

(** The same, as a test. *)
Definition is_capital (a : ascii) : bool :=
  (65 <=? nat_of_ascii a)%nat && (nat_of_ascii a <=? 90)%nat.

Definition same_letterb (a b : ascii) : bool :=
  Ascii.eqb a b
  || (is_capital a && (nat_of_ascii b =? nat_of_ascii a + 32)%nat)
  || (is_capital b && (nat_of_ascii a =? nat_of_ascii b + 32)%nat).

Fixpoint eq_ignore_caseb (s t : string) : bool :=
  match s, t with
  | EmptyString, EmptyString => true
  | String a s', String b t' => same_letterb a b && eq_ignore_caseb s' t'
  | _, _ => false
  end.

(** A raw flag that, written by [str], is "TRUE" in some mix of cases. *)
Definition reads_true (x : cell) : bool := eq_ignore_caseb (str x) "TRUE".

(** The rows of the sheet of a city and year whose raw flag reads true,
    and those among them with a given derived month name. *)
Definition flagged (cidade : string) (ano : Z) (raw : RawRow.t) : bool :=
  (RawRow.cidade raw =? cidade) && (RawRow.year raw =? ano)%Z &&
  reads_true (RawRow.isHW raw).

Definition flagged_days (sheet : Sheet) (cidade : string) (ano : Z) : nat :=
  length (filter (flagged cidade ano) sheet).

Definition flagged_named (lc : Locale) (sheet : Sheet) (cidade : string)
    (ano : Z) (m : string) : nat :=
  length (filter (fun raw => flagged cidade ano raw &&
                             (strftime_B lc (RawRow.index raw) =? m)) sheet).

(** [l'] holds the elements of [l] that satisfy [P], all of them, each as
    often as [l] has it, in the order of [l]. *)
Inductive Selection {A : Type} (P : A -> Prop) : list A -> list A -> Prop :=
| Selection_nil : Selection P [] []
| Selection_keep (x : A) (l l' : list A) :
    P x -> Selection P l l' -> Selection P (x :: l) (x :: l')
| Selection_skip (x : A) (l l' : list A) :
    ~ P x -> Selection P l l' -> Selection P (x :: l) l'.

(** Text of ASCII characters only, and a run of characters beyond ASCII. *)
Definition ascii_text (s : string) : bool :=
  forallb is_ascii (list_ascii_of_string s).

Definition beyond_ascii (s : string) : bool :=
  forallb (fun c => negb (is_ascii c)) (list_ascii_of_string s).

(** Text made of the letters T, R, U and E only. *)
Definition is_TRUE_letter (c : ascii) : bool :=
  existsb (Ascii.eqb c) ["T"; "R"; "U"; "E"]%char.

Definition letters_of_TRUE (s : string) : bool :=
  forallb is_TRUE_letter (list_ascii_of_string s).

(** A case table under which no run of characters beyond ASCII has an
    upper case written with the letters T, R, U and E alone.  The tables
    of Unicode are so: no character beyond ASCII has such an upper case. *)
Definition apart_from_TRUE (uc : Casing) : Prop :=
  forall run : string,
    run <> EmptyString -> beyond_ascii run = true ->
    letters_of_TRUE (uc run) = false.

(** The case table of text without cased letters beyond ASCII: every run
    stays as it is. *)
Definition caseless : Casing := fun run => run.

(** Upper case byte by byte. *)
Fixpoint upper_bytes (s : string) : string :=
  match s with
  | EmptyString => EmptyString
  | String c s' => String (upper_ascii c) (upper_bytes s')
  end.

(** A string of capital ASCII letters. *)
Fixpoint capital_letters (t : string) : Prop :=
  match t with
  | EmptyString => True
  | String b t' => (65 <= nat_of_ascii b <= 90)%nat /\ capital_letters t'
  end.

(** *** Sample frames *)

Definition day (y : Z) (mo : Month) (d : Z) : Timestamp := mkTimestamp y mo d.

Definition obs (c : string) (t : Timestamp) (med : float) (hw : string)
  : Row.t :=
  {| Row.cidade := c; Row.index := t; Row.year := ts_year t;
     Row.tempMax := (med + 4)%float; Row.tempMed := med;
     Row.tempMin := (med - 4)%float;
     Row.isHW := hw; Row.Lat := (-8)%float; Row.Long := (-35)%float |}.

Definition fortaleza : DataFrame :=
  [ obs "Fortaleza" (day 2001 Jun 1) 28 "FALSE";
    obs "Fortaleza" (day 2002 Jun 1) 30 "TRUE";
    obs "Fortaleza" (day 2003 Jun 1) 29 "FALSE" ].

Definition recife : DataFrame :=
  [ obs "Recife" (day 2020 Jan 14) 31 "TRUE";
    obs "Recife" (day 2020 Jan 15) 32 "TRUE";
    obs "Recife" (day 2020 Feb 2) 27 "FALSE";
    obs "Recife" (day 2020 Mar 9) 31 "TRUE";
    obs "Natal" (day 2019 Dec 24) 30 "TRUE" ].

(** One city with three days of one year. *)
Definition one_year : DataFrame :=
  [ obs "Natal" (day 2020 Jan 1) 0.1 "FALSE";
    obs "Natal" (day 2020 Jan 2) 0.2 "FALSE";
    obs "Natal" (day 2020 Jan 3) 0.3 "FALSE" ].

(** Two days of one city and year, the later one first. *)
Definition unsorted : DataFrame :=
  [ obs "Recife" (day 2020 Jan 15) 32 "TRUE";
    obs "Recife" (day 2020 Jan 14) 31 "TRUE" ].

(** A sheet with flags of several kinds, one of them text beyond ASCII. *)
Definition sheet_row (c : string) (t : Timestamp) (med : float) (hw : cell)
  : RawRow.t :=
  {| RawRow.cidade := c; RawRow.index := t; RawRow.year := ts_year t;
     RawRow.tempMax := (med + 4)%float; RawRow.tempMed := med;
     RawRow.tempMin := (med - 4)%float;
     RawRow.isHW := hw; RawRow.Lat := (-8)%float; RawRow.Long := (-35)%float |}.

Definition recife_sheet : Sheet :=
  [ sheet_row "Recife" (day 2020 Jan 14) 31 (CBool true);
    sheet_row "Recife" (day 2020 Jan 15) 32 (CStr "true");
    sheet_row "Recife" (day 2020 Feb 2) 27 (CStr "não");
    sheet_row "Recife" (day 2020 Mar 9) 31 (CStr "TRUE");
    sheet_row "Recife" (day 2020 Mar 10) 30 CNaN;
    sheet_row "Natal" (day 2019 Dec 24) 30 (CBool false) ].

(** A sheet whose flags are ASCII text, booleans, numbers and an empty
    cell. *)
Definition natal_sheet : Sheet :=
  [ sheet_row "Natal" (day 2021 Jan 5) 30 (CStr "True");
    sheet_row "Natal" (day 2021 Jan 6) 31 (CBool true);
    sheet_row "Natal" (day 2021 Jan 7) 29 (CStr "false");
    sheet_row "Natal" (day 2021 Jan 8) 28 (CFloat false 1 ".0");
    sheet_row "Natal" (day 2021 Jan 9) 28 CNaN ].

(* ===================================================================== *)
(** ** Start-up: the module-level code and the layout *)
(* ===================================================================== *)

Module Builtins.

(** The built-in exceptions the layout expressions can raise. *)
Inductive exn : Type :=
| IndexError
| ValueError
| KeyError
| NameError.

Inductive py (A : Type) : Type :=
| Val (a : A)
| Exn (e : exn).
Arguments Val {A} a.
Arguments Exn {A} e.

Definition py_bind {A B : Type} (m : py A) (k : A -> py B) : py B :=
  match m with
  | Val a => k a
  | Exn e => Exn e
  end.

(** [xs[0]]. *)
Definition item0 {A : Type} (xs : list A) : py A :=
  match xs with
  | [] => Exn IndexError
  | x :: _ => Val x
  end.

(** [min(xs)] and [max(xs)] on a list of integers. *)
Definition py_min (xs : list Z) : py Z :=
  match xs with
  | [] => Exn ValueError
  | x :: xs' => Val (fold_left Z.min xs' x)
  end.

Definition py_max (xs : list Z) : py Z :=
  match xs with
  | [] => Exn ValueError
  | x :: xs' => Val (fold_left Z.max xs' x)
  end.

End Builtins.
Export Builtins.

(* ===================================================================== *)
(** ** The aggregators on frame objects *)
(* ===================================================================== *)

(** A frame is an object: a variable holds a reference to it, [df[mask]],
    [.copy()], [groupby], [merge] and [fillna] build a new object, and an
    assignment to a column writes into the object the variable refers to.
    The aggregators are given here once more, on references into a heap of
    frames, statement by statement; what they return is the reference of
    the result frame. *)
Module Stateful.

Definition ref : Type := nat.

(** The frames the program builds, by their columns. *)
Inductive frame : Type :=
| FObs (rows : list Row.t)                      (* the columns of [df] *)
| FObsMes (rows : list (Row.t * string))         (* ... and [mes] *)
| FSummary (rows : list SummaryRow)             (* cidade, year, dias_hw *)
| FYearMean (rows : list (Z * float))           (* year, tempMed *)
| FAnomaly (rows : list AnomalyRow)             (* year, tempMed, anomalia *)
| FMes (rows : list string)                     (* mes *)
| FMesCount (rows : list (string * nat))        (* mes, frequencia *)
| FMesCountNA (rows : list (string * option nat)).

Definition heap : Type := list frame.

Definition St (A : Type) : Type := heap -> py (A * heap).

Definition ret {A : Type} (a : A) : St A := fun h => Val (a, h).

Definition raise {A : Type} (e : exn) : St A := fun _ => Exn e.

Definition st_bind {A B : Type} (m : St A) (k : A -> St B) : St B :=
  fun h =>
    match m h with
    | Val (a, h') => k a h'
    | Exn e => Exn e
    end.

(** A new object. *)
Definition alloc (f : frame) : St ref :=
  fun h => Val (length h, (h ++ [f])%list).

(** The object a reference leads to. *)
Definition read (r : ref) : St frame :=
  fun h =>
    match nth_error h r with
    | Some f => Val (f, h)
    | None => Exn NameError
    end.

(** The object a reference leads to is replaced, in place. *)
Definition write (r : ref) (f : frame) : St unit :=
  fun h =>
    if (r <? length h)%nat
    then Val (tt, (firstn r h ++ f :: skipn (S r) h)%list)
    else Exn NameError.

End Stateful.

Notation "x <~ m ;; k" := (Stateful.st_bind m (fun x => k))
  (at level 61, m at next level, right associativity).
Notation "m ;;; k" := (Stateful.st_bind m (fun _ => k))
  (at level 61, right associativity).

Module StatefulPandas.
Import Stateful.

(** [frame[mask]]: a new frame with the rows the mask keeps. *)
Definition getitem_mask (r : ref) (mask : Row.t -> bool) : St ref :=
  f <~ read r ;;
  match f with
  | FObs rows => alloc (FObs (filter mask rows))
  | FObsMes rows => alloc (FObsMes (filter (fun p => mask (fst p)) rows))
  | _ => raise KeyError
  end.

(** [frame.copy()]. *)
Definition copy (r : ref) : St ref :=
  f <~ read r ;; alloc f.

(** [frame["index"]] and [frame["tempMed"]]: the values of a column. *)
Definition column_index (r : ref) : St (list Timestamp) :=
  f <~ read r ;;
  match f with
  | FObs rows => ret (map Row.index rows)
  | FObsMes rows => ret (map (fun p => Row.index (fst p)) rows)
  | _ => raise KeyError
  end.

Definition column_tempMed (r : ref) : St (list float) :=
  f <~ read r ;;
  match f with
  | FObs rows => ret (map Row.tempMed rows)
  | FObsMes rows => ret (map (fun p => Row.tempMed (fst p)) rows)
  | FYearMean rows => ret (map snd rows)
  | FAnomaly rows => ret (map an_tempMed rows)
  | _ => raise KeyError
  end.

(** [frame["mes"] = values], in place. *)
Definition setitem_mes (r : ref) (values : list string) : St unit :=
  f <~ read r ;;
  match f with
  | FObs rows =>
      if (length values =? length rows)%nat
      then write r (FObsMes (combine rows values))
      else raise ValueError
  | FObsMes rows =>
      if (length values =? length rows)%nat
      then write r (FObsMes (combine (map fst rows) values))
      else raise ValueError
  | _ => raise KeyError
  end.

(** [frame["anomalia"] = values], in place. *)
Definition setitem_anomalia (r : ref) (values : list float) : St unit :=
  f <~ read r ;;
  match f with
  | FYearMean rows =>
      if (length values =? length rows)%nat
      then write r (FAnomaly
                      (map (fun p => mkAnomalyRow (fst (fst p)) (snd (fst p))
                                                  (snd p))
                           (combine rows values)))
      else raise ValueError
  | FAnomaly rows =>
      if (length values =? length rows)%nat
      then write r (FAnomaly
                      (map (fun p => mkAnomalyRow (an_year (fst p))
                                                  (an_tempMed (fst p)) (snd p))
                           (combine rows values)))
      else raise ValueError
  | _ => raise KeyError
  end.

(** [frame.groupby(["cidade", "year"]).size().reset_index(name="dias_hw")]. *)
Definition groupby_cidade_year_size (r : ref) : St ref :=
  f <~ read r ;;
  match f with
  | FObs rows =>
      alloc (FSummary
               (map (fun g => mkSummaryRow (fst (fst g)) (snd (fst g)) (snd g))
                    (size (groupby (fun x => (Row.cidade x, Row.year x))
                                   rows))))
  | _ => raise KeyError
  end.

(** [frame.groupby("year")["tempMed"].mean().reset_index()]. *)
Definition groupby_year_mean (r : ref) : St ref :=
  f <~ read r ;;
  match f with
  | FObs rows =>
      alloc (FYearMean (group_mean Row.tempMed (groupby Row.year rows)))
  | _ => raise KeyError
  end.

(** [frame.groupby("mes").size().reset_index(name="frequencia")]. *)
Definition groupby_mes_size (r : ref) : St ref :=
  f <~ read r ;;
  match f with
  | FObsMes rows => alloc (FMesCount (size (groupby snd rows)))
  | _ => raise KeyError
  end.

(** [left.merge(right, on="mes", how="left")]. *)
Definition merge_mes (left right : ref) : St ref :=
  l <~ read left ;;
  r <~ read right ;;
  match l, r with
  | FMes names, FMesCount counts => alloc (FMesCountNA (merge_left names counts))
  | _, _ => raise KeyError
  end.

(** [frame.fillna({"frequencia": 0})]. *)
Definition fillna_frequencia (r : ref) : St ref :=
  f <~ read r ;;
  match f with
  | FMesCountNA rows => alloc (FMesCount (fillna0 rows))
  | FMesCount rows => alloc (FMesCount rows)
  | _ => raise KeyError
  end.

(** [calculate_hw_summary(df)]. *)
Definition calculate_hw_summary (df : ref) : St ref :=
  selected <~ getitem_mask df is_hw ;;
  df_hw <~ copy selected ;;
  df_hw_grouped <~ groupby_cidade_year_size df_hw ;;
  ret df_hw_grouped.

(** [calculate_anomalies(df, cidade)]. *)
Definition calculate_anomalies (df : ref) (cidade : string) : St ref :=
  selected <~ getitem_mask df (in_city cidade) ;;
  readings <~ column_tempMed selected ;;
  let baseline := series_mean readings in
  selected <~ getitem_mask df (in_city cidade) ;;
  df_anomalia <~ groupby_year_mean selected ;;
  means <~ column_tempMed df_anomalia ;;
  setitem_anomalia df_anomalia (map (fun m => (m - baseline)%float) means) ;;;
  ret df_anomalia.

(** [calculate_hw_monthly(df, cidade, ano)], under the locale [lc]. *)
Definition calculate_hw_monthly (lc : Locale) (df : ref) (cidade : string)
    (ano : Z) : St ref :=
  selected <~
    getitem_mask df (fun r => in_city cidade r && in_year ano r && is_hw r) ;;
  dff <~ copy selected ;;
  dates <~ column_index dff ;;
  setitem_mes dff (map (strftime_B lc) dates) ;;;
  monthly_counts <~ groupby_mes_size dff ;;
  months_frame <~ alloc (FMes all_months) ;;
  merged <~ merge_mes months_frame monthly_counts ;;
  monthly_counts <~ fillna_frequencia merged ;;
  ret monthly_counts.

End StatefulPandas.

(** [df.drop_duplicates(key)], with the default [keep="first"]: a row stays
    when no row before it has its key. *)
Fixpoint drop_duplicates_from {K R : Type} `{Ord K} (key : R -> K)
    (seen : list K) (rows : list R) : list R :=
  match rows with
  | [] => []
  | r :: rows' =>
      if existsb (key_eqb (key r)) seen
      then drop_duplicates_from key seen rows'
      else r :: drop_duplicates_from key (key r :: seen) rows'
  end.

Definition drop_duplicates {K R : Type} `{Ord K} (key : R -> K)
    (rows : list R) : list R :=
  drop_duplicates_from key [] rows.

Record Marker : Type := mkMarker {
  mk_position : float * float;
  mk_tooltip : string
}.

Record MapTab : Type := mkMapTab {
  map_markers : list Marker;
  map_center : float * float;
  map_zoom : Z
}.

Record Dropdown (A : Type) : Type := mkDropdown {
  dd_options : list A;
  dd_value : A;
  dd_id : string
}.

Record Slider : Type := mkSlider {
  sl_min : Z;
  sl_max : Z;
  sl_step : Z;
  sl_value : Z;
  sl_marks : list (Z * string);
  sl_id : string
}.

Record HeatmapFigure : Type := mkHeatmapFigure {
  hm_x : list Z;
  hm_y : list string;
  hm_z : list nat
}.

Record Layout : Type := mkLayout {
  tab_map : MapTab;
  tab_temp : Dropdown string * Slider;
  tab_anomaly : Dropdown string;
  tab_heatmap : HeatmapFigure;
  tab_polar : Dropdown string * Dropdown Z
}.

(** The markers of the map tab: one for each row of
    [df.drop_duplicates("cidade")]. *)
Definition station_markers (df : DataFrame) : list Marker :=
  map (fun row => mkMarker (Row.Lat row, Row.Long row) (Row.cidade row))
      (drop_duplicates Row.cidade df).

(** [app.layout = dbc.Container([...])], as far as it reads the data: the
    tabs are built in the order of the source, and so are the arguments of
    each component. *)
Definition app_layout (df : DataFrame) (df_hw_summary : list SummaryRow)
  : py Layout :=
  let cidades := cidades df in
  let anos := anos df in
  let mapa :=
    mkMapTab (station_markers df)
             (series_mean (map Row.Lat df), series_mean (map Row.Long df)) 6 in
  py_bind (item0 cidades) (fun cidade_temp =>
  py_bind (py_min anos) (fun ano_min =>
  py_bind (py_max anos) (fun ano_max =>
  py_bind (py_max anos) (fun ano_temp =>
  let marks := map (fun a => (a, str_int a)) anos in
  py_bind (item0 cidades) (fun cidade_anomalia =>
  let heatmap :=
    mkHeatmapFigure (map hs_year df_hw_summary)
                    (map hs_cidade df_hw_summary)
                    (map dias_hw df_hw_summary) in
  py_bind (item0 cidades) (fun cidade_polar =>
  py_bind (py_max anos) (fun ano_polar =>
  Val {| tab_map := mapa;
         tab_temp :=
           (mkDropdown cidades cidade_temp "cidade-temp",
            mkSlider ano_min ano_max 1 ano_temp marks "ano-temp");
         tab_anomaly := mkDropdown cidades cidade_anomalia "cidade-anomalia";
         tab_heatmap := heatmap;
         tab_polar :=
           (mkDropdown cidades cidade_polar "cidade-polar",
            mkDropdown anos ano_polar "ano-polar") |}))))))).

(** *** More vocabulary *)

(** The eight running sums, added up. *)
Definition lanes_sum (r : @lanes Q) : Q :=
  let '(r0, r1, r2, r3, r4, r5, r6, r7) := r in
  (((r0 + r1) + (r2 + r3)) + ((r4 + r5) + (r6 + r7)))%Q.

(** Two calls of [op], one after the other from the heap [h]: both return,
    each the reference of a new frame, both frames hold [out], the second
    call leaves the first result alone, and every object of [h] is after
    each call what it was before. *)
Definition repeatable (op : Stateful.St Stateful.ref) (h : Stateful.heap)
    (out : Stateful.frame) : Prop :=
  exists r1 h1 r2 h2,
    op h = Val (r1, h1) /\
    op h1 = Val (r2, h2) /\
    nth_error h r1 = None /\
    nth_error h1 r2 = None /\
    nth_error h1 r1 = Some out /\
    nth_error h2 r2 = Some out /\
    nth_error h2 r1 = Some out /\
    (forall r f, nth_error h r = Some f ->
                 nth_error h1 r = Some f /\ nth_error h2 r = Some f).


(** A loaded row written back to a sheet, the flag as text. *)
Definition as_sheet_row (r : Row.t) : RawRow.t :=
  {| RawRow.cidade := Row.cidade r;
     RawRow.index := Row.index r;
     RawRow.year := Row.year r;
     RawRow.tempMax := Row.tempMax r;
     RawRow.tempMed := Row.tempMed r;
     RawRow.tempMin := Row.tempMin r;
     RawRow.isHW := CStr (Row.isHW r);
     RawRow.Lat := Row.Lat r;
     RawRow.Long := Row.Long r |}.

(** A byte that is not one of the letters a..z. *)
Definition not_lower (c : ascii) : Prop :=
  ~ (97 <= nat_of_ascii c <= 122)%nat.

Fixpoint no_lower (s : string) : Prop :=
  match s with
  | EmptyString => True
  | String c s' => not_lower c /\ no_lower s'
  end.

(** Reading a decimal numeral. *)
Definition parse_int (s : string) : option Z :=
  option_map Z.of_int (NilZero.int_of_string s).

(* ===================================================================== *)
(** ** Order laws of the key types *)
(* ===================================================================== *)

Lemma string_compare_refl (s : string) : String.compare s s = Eq.
Proof.
  induction s as [|c s IH]; simpl; [reflexivity|].
  unfold Ascii.compare. now rewrite N.compare_refl.
Qed.

Lemma string_compare_trans (a b c : string) :
  String.compare a b = Lt -> String.compare b c = Lt -> String.compare a c = Lt.
Proof.
  revert b c.
  induction a as [|x a IH]; intros [|y b] [|z c]; simpl; try congruence.
  unfold Ascii.compare.
  destruct (N.compare_spec (N_of_ascii x) (N_of_ascii y)) as [E1|L1|G1];
    try discriminate;
    destruct (N.compare_spec (N_of_ascii y) (N_of_ascii z)) as [E2|L2|G2];
    try discriminate; intros H1 H2.
  - rewrite E1, E2, N.compare_refl. eauto.
  - rewrite E1. now apply N.compare_lt_iff in L2 as ->.
  - rewrite <- E2. now apply N.compare_lt_iff in L1 as ->.
  - assert (L : (N_of_ascii x < N_of_ascii z)%N) by lia.
    now apply N.compare_lt_iff in L as ->.
Qed.

#[export] Instance OrdLaws_Z : OrdLaws Z.
Proof.
  split; unfold cmp, Ord_Z; intros.
  - apply Z.compare_eq_iff.
  - apply Z.compare_antisym.
  - rewrite Z.compare_lt_iff in *. lia.
Qed.

#[export] Instance OrdLaws_string : OrdLaws string.
Proof.
  split; unfold cmp, Ord_string; intros.
  - split; [apply String.compare_eq_iff | intros ->; apply string_compare_refl].
  - apply String.compare_antisym.
  - eapply string_compare_trans; eassumption.
Qed.

#[export] Instance OrdLaws_pair {A B : Type} `{OrdLaws A} `{OrdLaws B} :
  OrdLaws (A * B).
Proof.
  split; unfold cmp, Ord_pair.
  - intros [a1 b1] [a2 b2]; simpl. split.
    + destruct (cmp a1 a2) eqn:E; try discriminate.
      intros Hb. apply cmp_eq in E, Hb. congruence.
    + intros [= -> ->].
      assert (E : cmp a2 a2 = Eq) by now apply cmp_eq.
      rewrite E. now apply cmp_eq.
  - intros [a1 b1] [a2 b2]; simpl.
    rewrite (cmp_antisym a1 a2).
    destruct (cmp a1 a2); simpl; auto using cmp_antisym.
  - intros [a1 b1] [a2 b2] [a3 b3]; simpl.
    destruct (cmp a1 a2) eqn:E12; try discriminate;
      destruct (cmp a2 a3) eqn:E23; try discriminate; intros H12 H23.
    + apply cmp_eq in E12, E23. subst.
      assert (E : cmp a3 a3 = Eq) by now apply cmp_eq.
      rewrite E. eauto using cmp_trans.
    + apply cmp_eq in E12. subst. now rewrite E23.
    + apply cmp_eq in E23. subst. now rewrite E12.
    + now rewrite (cmp_trans _ _ _ E12 E23).
Qed.

Section OrdFacts.
Context {K : Type} `{OrdLaws K}.

Lemma cmp_refl (a : K) : cmp a a = Eq.
Proof. now apply cmp_eq. Qed.

Lemma cmp_gt_lt (a b : K) : cmp a b = Gt -> cmp b a = Lt.
Proof. intros E. now rewrite cmp_antisym, E. Qed.

Lemma key_lt_irrefl (a : K) : ~ key_lt a a.
Proof. unfold key_lt. now rewrite cmp_refl. Qed.

Lemma key_lt_trans (a b c : K) : key_lt a b -> key_lt b c -> key_lt a c.
Proof. apply cmp_trans. Qed.

Lemma key_eqb_eq (a b : K) : key_eqb a b = true <-> a = b.
Proof.
  unfold key_eqb. rewrite <- cmp_eq.
  destruct (cmp a b); intuition congruence.
Qed.

Lemma key_eqb_refl (a : K) : key_eqb a a = true.
Proof. now apply key_eqb_eq. Qed.

Lemma key_eqb_neq (a b : K) : key_eqb a b = false <-> a <> b.
Proof.
  rewrite <- key_eqb_eq. destruct (key_eqb a b); intuition congruence.
Qed.

Lemma key_lt_neqb (a b : K) : key_lt a b -> key_eqb a b = false.
Proof. unfold key_lt, key_eqb. now intros ->. Qed.

Lemma key_lt_neqb' (a b : K) : key_lt a b -> key_eqb b a = false.
Proof.
  unfold key_lt, key_eqb. intros E. now rewrite cmp_antisym, E.
Qed.

(** Keys in strictly ascending order are pairwise distinct. *)
Lemma sorted_keys_NoDup (ks : list K) :
  StronglySorted key_lt ks -> NoDup ks.
Proof.
  induction 1 as [|k ks _ IH Hall]; constructor; auto.
  intros Hin. rewrite Forall_forall in Hall.
  exact (key_lt_irrefl (Hall _ Hin)).
Qed.
End OrdFacts.

(* ===================================================================== *)
(** ** Facts about [groupby] *)
(* ===================================================================== *)

Section GroupByFacts.
Context {K R : Type} `{OrdLaws K}.
Variable key : R -> K.

Local Abbreviation keys gs := (map fst gs).
Local Abbreviation has_key k := (fun r => key_eqb (key r) k).

Lemma add_row_above (k : K) (r : R) (gs : list (K * list R)) :
  key_lt k (key r) ->
  Forall (key_lt k) (keys gs) ->
  Forall (key_lt k) (keys (add_row key r gs)).
Proof.
  intros Hr. induction gs as [|[k' rs] gs IH]; simpl; intros Hgs.
  - now repeat constructor.
  - inversion Hgs as [|? ? Hk' Hrest]; subst.
    destruct (cmp (key r) k'); simpl; constructor; auto.
Qed.

Lemma add_row_sorted (r : R) (gs : list (K * list R)) :
  StronglySorted key_lt (keys gs) ->
  StronglySorted key_lt (keys (add_row key r gs)).
Proof.
  induction gs as [|[k' rs] gs IH]; simpl; intros Hs.
  - repeat constructor.
  - inversion Hs as [|? ? Hs' Hall]; subst.
    destruct (cmp (key r) k') eqn:E; simpl.
    + now constructor.
    + constructor; [exact Hs|].
      constructor; [exact E|].
      eapply Forall_impl; [|exact Hall].
      intros k. now apply key_lt_trans.
    + constructor; [now apply IH|].
      apply add_row_above; [now apply cmp_gt_lt | exact Hall].
Qed.

(** The groups come in strictly ascending key order. *)
Lemma groupby_sorted (rows : list R) :
  StronglySorted key_lt (keys (groupby key rows)).
Proof.
  induction rows as [|r rows IH]; simpl;
    [constructor | now apply add_row_sorted].
Qed.

Lemma group_of_above (k : K) (gs : list (K * list R)) :
  Forall (key_lt k) (keys gs) -> group_of k gs = [].
Proof.
  induction gs as [|[k' rs] gs IH]; simpl; intros Hall; [reflexivity|].
  inversion Hall as [|? ? Hk Hrest]; subst.
  rewrite (key_lt_neqb' Hk). auto.
Qed.

Lemma group_of_add_row (k : K) (r : R) (gs : list (K * list R)) :
  StronglySorted key_lt (keys gs) ->
  group_of k (add_row key r gs) =
  if key_eqb (key r) k then r :: group_of k gs else group_of k gs.
Proof.
  induction gs as [|[k' rs] gs IH]; simpl; intros Hs.
  - now destruct (key_eqb (key r) k).
  - inversion Hs as [|? ? Hs' Hall]; subst.
    destruct (cmp (key r) k') eqn:E; simpl.
    + apply cmp_eq in E. subst k'.
      now destruct (key_eqb (key r) k).
    + destruct (key_eqb (key r) k) eqn:Ek; [|reflexivity].
      apply key_eqb_eq in Ek. subst k.
      rewrite (key_lt_neqb' (a := key r) (b := k')) by exact E.
      rewrite group_of_above; [reflexivity|].
      eapply Forall_impl; [|exact Hall].
      intros k. now apply key_lt_trans.
    + destruct (key_eqb k' k) eqn:Ek'.
      * apply key_eqb_eq in Ek'. subst k.
        now rewrite (key_lt_neqb' (cmp_gt_lt _ _ E)).
      * now apply IH.
Qed.

(** The group of a key holds the rows with that key, in frame order. *)
Lemma group_of_groupby (k : K) (rows : list R) :
  group_of k (groupby key rows) = filter (has_key k) rows.
Proof.
  induction rows as [|r rows IH]; simpl; [reflexivity|].
  rewrite group_of_add_row by apply groupby_sorted.
  rewrite IH. reflexivity.
Qed.

Lemma group_of_In (k : K) (rs : list R) (gs : list (K * list R)) :
  StronglySorted key_lt (keys gs) ->
  In (k, rs) gs -> group_of k gs = rs.
Proof.
  induction gs as [|[k' rs'] gs IH]; simpl; intros Hs Hin; [easy|].
  inversion Hs as [|? ? Hs' Hall]; subst.
  destruct Hin as [[= -> ->]|Hin].
  - now rewrite key_eqb_refl.
  - rewrite Forall_forall in Hall.
    assert (Hlt : key_lt k' k) by (apply Hall; now apply (in_map fst) in Hin).
    rewrite (key_lt_neqb Hlt). auto.
Qed.

Lemma group_of_nonempty (k : K) (gs : list (K * list R)) :
  group_of k gs <> [] -> In (k, group_of k gs) gs.
Proof.
  induction gs as [|[k' rs'] gs IH]; simpl; intros Hne; [easy|].
  destruct (key_eqb k' k) eqn:E.
  - apply key_eqb_eq in E. subst. now left.
  - right. auto.
Qed.

Lemma add_row_nonempty (r : R) (gs : list (K * list R)) :
  Forall (fun g => snd g <> []) gs ->
  Forall (fun g => snd g <> []) (add_row key r gs).
Proof.
  induction gs as [|[k' rs] gs IH]; simpl; intros Hall.
  - repeat constructor. easy.
  - inversion Hall; subst.
    destruct (cmp (key r) k'); constructor; simpl; auto; easy.
Qed.

Lemma groupby_nonempty (rows : list R) :
  Forall (fun g => snd g <> []) (groupby key rows).
Proof.
  induction rows as [|r rows IH]; simpl;
    [constructor | now apply add_row_nonempty].
Qed.

(** What a group of [groupby] is: the rows of its key, and there are some. *)
Lemma groupby_In (k : K) (rs : list R) (rows : list R) :
  In (k, rs) (groupby key rows) <->
  rs = filter (has_key k) rows /\ rs <> [].
Proof.
  split.
  - intros Hin. split.
    + rewrite <- group_of_groupby. symmetry.
      apply group_of_In; [apply groupby_sorted | exact Hin].
    + pose proof (groupby_nonempty rows) as Hne.
      rewrite Forall_forall in Hne. exact (Hne _ Hin).
  - intros [-> Hne]. rewrite <- group_of_groupby in *.
    now apply group_of_nonempty.
Qed.

Lemma filter_has_key_nonempty (k : K) (rows : list R) :
  filter (has_key k) rows <> [] <-> exists r, In r rows /\ key r = k.
Proof.
  split.
  - destruct (filter (has_key k) rows) as [|r rs] eqn:E; [easy|].
    intros _. exists r.
    assert (Hin : In r (filter (has_key k) rows)) by (rewrite E; now left).
    apply filter_In in Hin. now rewrite key_eqb_eq in Hin.
  - intros (r & Hin & Hk) E.
    assert (Hin' : In r (filter (has_key k) rows)).
    { apply filter_In. now rewrite key_eqb_eq. }
    now rewrite E in Hin'.
Qed.

(** A key has a group exactly when some row carries it. *)
Lemma groupby_keys (k : K) (rows : list R) :
  In k (keys (groupby key rows)) <-> exists r, In r rows /\ key r = k.
Proof.
  rewrite <- filter_has_key_nonempty. split.
  - intros Hin. apply in_map_iff in Hin as [[k' rs] [E Hin]].
    simpl in E. subst k'. now apply groupby_In in Hin as [-> Hne].
  - intros Hne. apply in_map_iff.
    exists (k, filter (has_key k) rows). split; [reflexivity|].
    now apply groupby_In.
Qed.

Lemma groupby_keys_NoDup (rows : list R) :
  NoDup (keys (groupby key rows)).
Proof. apply sorted_keys_NoDup, groupby_sorted. Qed.

Lemma size_keys (gs : list (K * list R)) : keys (size gs) = keys gs.
Proof. unfold size. rewrite map_map. reflexivity. Qed.

Lemma size_In (k : K) (n : nat) (rows : list R) :
  In (k, n) (size (groupby key rows)) <->
  n = length (filter (has_key k) rows) /\ n <> 0%nat.
Proof.
  unfold size. rewrite in_map_iff. split.
  - intros [[k' rs] [[= <- <-] Hin]]. simpl.
    apply groupby_In in Hin as [-> Hne]. split; [reflexivity|].
    now rewrite length_zero_iff_nil.
  - intros [-> Hne]. exists (k, filter (has_key k) rows). split; [reflexivity|].
    apply groupby_In. split; [reflexivity|].
    now rewrite <- length_zero_iff_nil.
Qed.
End GroupByFacts.

(** Key equality at the key types of the program. *)
Lemma key_eqb_string (a b : string) : key_eqb a b = (a =? b)%string.
Proof.
  destruct (String.eqb_spec a b) as [->|Hne].
  - apply key_eqb_refl.
  - now apply key_eqb_neq.
Qed.

Lemma key_eqb_Z (a b : Z) : key_eqb a b = (a =? b)%Z.
Proof.
  destruct (Z.eqb_spec a b) as [->|Hne].
  - apply key_eqb_refl.
  - now apply key_eqb_neq.
Qed.

Lemma key_eqb_pair {A B : Type} `{OrdLaws A} `{OrdLaws B}
    (a1 a2 : A) (b1 b2 : B) :
  key_eqb (a1, b1) (a2, b2) = key_eqb a1 a2 && key_eqb b1 b2.
Proof.
  destruct (key_eqb a1 a2) eqn:Ea; destruct (key_eqb b1 b2) eqn:Eb; simpl;
    rewrite ?key_eqb_eq, ?key_eqb_neq in *; congruence.
Qed.

Lemma key_lt_pair {A B : Type} `{OrdLaws A} `{OrdLaws B}
    (a1 a2 : A) (b1 b2 : B) :
  key_lt (a1, b1) (a2, b2) <->
  key_lt a1 a2 \/ (a1 = a2 /\ key_lt b1 b2).
Proof.
  unfold key_lt at 1. unfold cmp, Ord_pair. simpl.
  destruct (cmp a1 a2) eqn:E.
  - apply cmp_eq in E. subst. pose proof (@key_lt_irrefl A _ _ a2).
    unfold key_lt in *. tauto.
  - unfold key_lt. tauto.
  - unfold key_lt. split; [discriminate|].
    intros [E'|[-> _]]; [congruence|]. now rewrite cmp_refl in E.
Qed.

Lemma filter_filter {A : Type} (f g : A -> bool) (l : list A) :
  filter f (filter g l) = filter (fun x => g x && f x) l.
Proof.
  induction l as [|x l IH]; simpl; [reflexivity|].
  destruct (g x); simpl; [destruct (f x)|]; now rewrite IH.
Qed.

(* ===================================================================== *)
(** ** [calculate_hw_summary] *)
(* ===================================================================== *)

Lemma city_year_lt_key_lt (a b : string * Z) : key_lt a b <-> city_year_lt a b.
Proof.
  destruct a as [c1 y1], b as [c2 y2]. rewrite key_lt_pair.
  unfold city_year_lt, key_lt, String.ltb, cmp, Ord_string, Ord_Z; simpl.
  rewrite Z.compare_lt_iff.
  destruct (String.compare c1 c2); intuition congruence.
Qed.

Lemma StronglySorted_impl {A : Type} (P Q : A -> A -> Prop) (l : list A) :
  (forall a b, P a b -> Q a b) -> StronglySorted P l -> StronglySorted Q l.
Proof.
  intros HPQ. induction 1 as [|a l _ IH Hall]; constructor; auto.
  eapply Forall_impl; [|exact Hall]. auto.
Qed.

(** C5. [calculate_hw_summary] returns one row for each (city, year) pair
    that has a heat-wave day and for no other pair; the count of a row is
    the number of heat-wave days of its pair and is never 0; the pairs are
    pairwise distinct and come sorted by city, then year. *)
Theorem calculate_hw_summary_groups (df : DataFrame) :
  exists rows,
    calculate_hw_summary df = Returned rows /\
    (forall c y,
        In (c, y) (map summary_key rows) <->
        exists r, In r df /\ is_hw r = true /\
                  Row.cidade r = c /\ Row.year r = y) /\
    (forall row, In row rows ->
        dias_hw row = hw_days df (hs_cidade row) (hs_year row) /\
        dias_hw row <> 0%nat) /\
    NoDup (map summary_key rows) /\
    StronglySorted city_year_lt (map summary_key rows).
Proof.
  unfold calculate_hw_summary.
  set (key := fun r : Row.t => (Row.cidade r, Row.year r)).
  set (gs := groupby key (filter is_hw df)).
  eexists. split; [reflexivity|].
  assert (Hkeys :
    map summary_key
        (map (fun g => mkSummaryRow (fst (fst g)) (snd (fst g)) (snd g))
             (size gs)) = map fst gs).
  { rewrite map_map. unfold summary_key; simpl.
    rewrite <- (size_keys gs). apply map_ext. now intros [[c y] n]. }
  rewrite Hkeys. repeat split.
  - intros Hin. apply groupby_keys in Hin as (r & Hr & [= <- <-]).
    apply filter_In in Hr as [Hr Hhw]. now exists r.
  - intros (r & Hr & Hhw & <- & <-). apply groupby_keys.
    exists r. split; [|reflexivity]. now apply filter_In.
  - apply in_map_iff in H as [[[c y] n] [<- Hin]]. simpl.
    apply size_In in Hin as [-> _].
    rewrite filter_filter. unfold hw_days. f_equal.
    apply filter_ext. intros r. unfold key, in_city, in_year.
    now rewrite key_eqb_pair, key_eqb_string, key_eqb_Z, andb_assoc.
  - apply in_map_iff in H as [[[c y] n] [<- Hin]]. simpl.
    now apply size_In in Hin as [_ Hne].
  - apply groupby_keys_NoDup.
  - eapply StronglySorted_impl; [|apply groupby_sorted].
    intros a b. apply city_year_lt_key_lt.
Qed.

(* ===================================================================== *)
(** ** [calculate_anomalies] *)
(* ===================================================================== *)

Lemma filter_all {A : Type} (f : A -> bool) (l : list A) :
  (forall x, In x l -> f x = true) -> filter f l = l.
Proof.
  induction l as [|x l IH]; simpl; intros Hall; [reflexivity|].
  rewrite (Hall x) by now left. f_equal. auto.
Qed.

Lemma NoDup_constant {A : Type} (a : A) (l : list A) :
  NoDup l -> (forall x, In x l -> x = a) -> l = [] \/ l = [a].
Proof.
  intros Hnd Hall. destruct l as [|x [|y l]]; auto.
  - right. f_equal. apply Hall. now left.
  - exfalso. inversion Hnd as [|? ? Hnotin _]; subst. apply Hnotin.
    rewrite (Hall x), (Hall y); simpl; auto.
Qed.

Lemma filter_city_year (df : DataFrame) (c : string) (y : Z) :
  filter (fun r => key_eqb (Row.year r) y) (filter (in_city c) df) =
  filter (fun r => in_city c r && in_year y r) df.
Proof.
  rewrite filter_filter. apply filter_ext. intros r.
  unfold in_year. now rewrite key_eqb_Z.
Qed.

(** *** The summations *)

Section Fuel.
Context {F : Type}.
Variable add : F -> F -> F.

(** The depth of the splitting never reaches the length of the array: any
    fuel from the length on gives the same sum. *)
Lemma pairwise_sum_fuel (f1 f2 : nat) (start : F) (xs : list F) :
  (length xs <= f1)%nat -> (length xs <= f2)%nat ->
  pairwise_sum_from add f1 start xs = pairwise_sum_from add f2 start xs.
Proof.
  revert f2 xs.
  induction f1 as [|f1 IH]; intros [|f2] xs H1 H2;
    cbn [pairwise_sum_from]; try reflexivity.
  - destruct xs; [reflexivity | simpl in H1; lia].
  - destruct xs; [reflexivity | simpl in H2; lia].
  - destruct (length xs <=? 128)%nat eqn:E; [reflexivity|].
    apply Nat.leb_gt in E.
    set (d := (length xs / 2)%nat).
    assert (Hd : (64 <= d < length xs)%nat).
    { subst d. split.
      - apply Nat.div_le_lower_bound; lia.
      - apply Nat.div_lt; lia. }
    assert (Hm : (d mod 8 < 8)%nat) by (apply Nat.mod_upper_bound; lia).
    f_equal; apply IH; rewrite ?length_firstn, ?length_skipn; lia.
Qed.
End Fuel.

Lemma exact_sum_app (xs ys : list Q) :
  (exact_sum (xs ++ ys) == exact_sum xs + exact_sum ys)%Q.
Proof.
  unfold exact_sum. induction xs as [|x xs IH]; simpl; [ring|].
  rewrite IH. ring.
Qed.

Lemma sum_loop_exact (xs : list Q) (r : Q) :
  (sum_loop Qplus r xs == r + exact_sum xs)%Q.
Proof.
  unfold sum_loop, exact_sum. revert r.
  induction xs as [|x xs IH]; intros r; simpl; [ring|].
  rewrite IH. ring.
Qed.

Lemma sum_lanes_exact (n : nat) (xs : list Q) (r : @lanes Q) :
  (length xs <= n)%nat ->
  (lanes_sum (fst (sum_lanes Qplus r xs)) +
   exact_sum (snd (sum_lanes Qplus r xs)) ==
   lanes_sum r + exact_sum xs)%Q.
Proof.
  revert xs r. induction n as [|n IH]; intros xs r Hlen.
  - destruct xs; [reflexivity | simpl in Hlen; lia].
  - destruct xs as [|x0 [|x1 [|x2 [|x3 [|x4 [|x5 [|x6 [|x7 rest]]]]]]]];
      try reflexivity.
    destruct r as [[[[[[[r0 r1] r2] r3] r4] r5] r6] r7].
    cbn [sum_lanes]. rewrite IH by (simpl in Hlen; lia).
    unfold lanes_sum, exact_sum. simpl. ring.
Qed.

Lemma block_sum_exact (xs : list Q) :
  (block_sum Qplus 0 xs == exact_sum xs)%Q.
Proof.
  destruct xs as [|x0 [|x1 [|x2 [|x3 [|x4 [|x5 [|x6 [|x7 rest]]]]]]]];
    try (unfold block_sum; rewrite sum_loop_exact; ring).
  unfold block_sum.
  pose proof (@sum_lanes_exact (length rest) rest
                (x0, x1, x2, x3, x4, x5, x6, x7) (Nat.le_refl _)) as H.
  destruct (sum_lanes Qplus (x0, x1, x2, x3, x4, x5, x6, x7) rest)
    as [[[[[[[[r0 r1] r2] r3] r4] r5] r6] r7] tail].
  rewrite sum_loop_exact. unfold lanes_sum in H. simpl in H.
  rewrite H. unfold exact_sum. simpl. ring.
Qed.

(** In exact arithmetic numpy's pairwise summation gives the sum. *)
Lemma pairwise_sum_exact (xs : list Q) :
  (pairwise_sum Qplus 0 xs == exact_sum xs)%Q.
Proof.
  unfold pairwise_sum. generalize (length xs) at 1. intros fuel.
  revert xs. induction fuel as [|fuel IH]; intros xs; simpl.
  - apply block_sum_exact.
  - destruct (length xs <=? 128)%nat; [apply block_sum_exact|].
    rewrite !IH, <- exact_sum_app, firstn_skipn. reflexivity.
Qed.

Lemma kahan_fold_exact (xs : list Q) (sumx comp : Q) :
  (comp == 0)%Q ->
  (fst (fold_left (kahan_step Qplus Qminus (fun _ => false) 0) xs (sumx, comp))
   == sumx + exact_sum xs)%Q.
Proof.
  revert sumx comp. induction xs as [|x xs IH]; intros sumx comp Hc; simpl.
  - unfold exact_sum. simpl. ring.
  - rewrite IH by ring. unfold exact_sum. simpl. rewrite Hc. ring.
Qed.

(** In exact arithmetic the compensated summation gives the sum too. *)
Lemma kahan_sum_exact (xs : list Q) :
  (kahan_sum Qplus Qminus (fun _ => false) 0 xs == exact_sum xs)%Q.
Proof.
  unfold kahan_sum. rewrite kahan_fold_exact by reflexivity. ring.
Qed.

(** *** The rows of the result *)

Lemma anomaly_years (df : DataFrame) (c : string) (b : float) :
  map an_year
      (map (fun g => mkAnomalyRow (fst g) (snd g) (snd g - b)%float)
           (group_mean Row.tempMed
                       (groupby Row.year (filter (in_city c) df)))) =
  map fst (groupby Row.year (filter (in_city c) df)).
Proof. unfold group_mean. now rewrite !map_map. Qed.

Lemma anomaly_row_In (df : DataFrame) (c : string) (row : AnomalyRow) :
  In row
     (map (fun g => mkAnomalyRow (fst g) (snd g)
                                 (snd g - baseline_of df c)%float)
          (group_mean Row.tempMed
                      (groupby Row.year (filter (in_city c) df)))) ->
  an_tempMed row = year_mean df c (an_year row) /\
  anomalia row = (year_mean df c (an_year row) - baseline_of df c)%float.
Proof.
  unfold group_mean. rewrite map_map, in_map_iff.
  intros [[y rs] [<- Hin]]. simpl.
  apply groupby_In in Hin as [-> Hne].
  rewrite filter_city_year. unfold year_mean. auto.
Qed.

(** C6, as the code has it.  For a city with at least one row,
    [calculate_anomalies] returns one row for each year the city has rows
    in, the years strictly ascending; the mean of a row is the groupby mean
    of [tempMed] over the city's rows of that year, and its anomaly is that
    mean minus the baseline, the [Series.mean] over all rows of the city,
    in float64.  When all rows of the city are of one year, the result is
    a single row: its two means are taken over the same readings, by the
    two summations.  These give the plain sum in exact arithmetic, and
    round on their own in float64: the readings 28, 30, 29 of three years
    give the anomalies -1, 1, 0, and the readings 0.1, 0.2, 0.3 of one year
    give the mean 0.19999999999999998 and the anomaly -2^-54. *)
Theorem calculate_anomalies_rows :
  (forall (df : DataFrame) (c : string),
      (exists r, In r df /\ Row.cidade r = c) ->
      exists rows,
        calculate_anomalies df c = Returned rows /\
        rows <> [] /\
        StronglySorted Z.lt (map an_year rows) /\
        (forall y,
            In y (map an_year rows) <->
            exists r, In r df /\ Row.cidade r = c /\ Row.year r = y) /\
        (forall row, In row rows ->
            an_tempMed row = year_mean df c (an_year row) /\
            anomalia row =
              (year_mean df c (an_year row) - baseline_of df c)%float) /\
        ((forall r1 r2, In r1 df -> In r2 df ->
                        Row.cidade r1 = c -> Row.cidade r2 = c ->
                        Row.year r1 = Row.year r2) ->
         exists y,
           rows = [ mkAnomalyRow y
                      (groupby_mean (city_readings df c))
                      (groupby_mean (city_readings df c) -
                       series_mean (city_readings df c))%float ])) /\
  (forall xs : list Q,
      (pairwise_sum Qplus 0 xs == exact_sum xs)%Q /\
      (kahan_sum Qplus Qminus (fun _ => false) 0 xs == exact_sum xs)%Q) /\
  calculate_anomalies fortaleza "Fortaleza" =
    Returned [ mkAnomalyRow 2001 28 (-1);
               mkAnomalyRow 2002 30 1;
               mkAnomalyRow 2003 29 0 ] /\
  calculate_anomalies one_year "Natal" =
    Returned [ mkAnomalyRow 2020 0x1.9999999999999p-3 (-0x1p-54) ].
Proof.
  split; [|split; [|split; [reflexivity | reflexivity]]].
  2:{ intros xs. split; [apply pairwise_sum_exact | apply kahan_sum_exact]. }
  intros df c (r0 & Hr0 & Hc0).
  unfold calculate_anomalies. fold (baseline_of df c).
  eexists. split; [reflexivity|].
  assert (Hyears : forall y,
    In y (map fst (groupby Row.year (filter (in_city c) df))) <->
    exists r, In r df /\ Row.cidade r = c /\ Row.year r = y).
  { intros y. rewrite groupby_keys. split.
    - intros (r & Hr & Hy). apply filter_In in Hr as [Hr Hc].
      apply String.eqb_eq in Hc. now exists r.
    - intros (r & Hr & Hc & Hy). exists r. split; [|exact Hy].
      apply filter_In. split; [exact Hr|]. now apply String.eqb_eq. }
  split; [|split; [|split; [|split]]].
  - intros E. apply (f_equal (map an_year)) in E.
    rewrite anomaly_years in E.
    assert (Hin : In (Row.year r0)
                     (map fst (groupby Row.year (filter (in_city c) df)))).
    { apply Hyears. now exists r0. }
    now rewrite E in Hin.
  - rewrite anomaly_years.
    eapply StronglySorted_impl; [|apply groupby_sorted].
    intros x y. unfold key_lt, cmp, Ord_Z. apply Z.compare_lt_iff.
  - intros y. rewrite anomaly_years. apply Hyears.
  - apply anomaly_row_In.
  - intros Hone.
    set (gs := groupby Row.year (filter (in_city c) df)) in *.
    assert (Hk : map fst gs = [Row.year r0]).
    { destruct (NoDup_constant (a := Row.year r0) (l := map fst gs)) as [E|E].
      - apply groupby_keys_NoDup.
      - intros y Hy. apply Hyears in Hy as (r & Hr & Hc & <-).
        now apply Hone.
      - assert (Hin : In (Row.year r0) (map fst gs))
          by (apply Hyears; now exists r0).
        now rewrite E in Hin.
      - exact E. }
    destruct gs as [|[y rs] [|g gs']] eqn:Egs; try discriminate.
    simpl in Hk. injection Hk as ->.
    assert (Hin : In (Row.year r0, rs) gs) by (subst gs; rewrite Egs; now left).
    apply groupby_In in Hin as [Hrs _].
    rewrite filter_all in Hrs.
    2:{ intros r Hr. apply filter_In in Hr as [Hr Hc].
        apply String.eqb_eq in Hc. apply key_eqb_eq. now apply Hone. }
    exists (Row.year r0). simpl. subst rs. reflexivity.
Qed.

Lemma calculate_anomalies_rows_witness :
  (exists r, In r fortaleza /\ Row.cidade r = "Fortaleza") /\
  exists rows,
    calculate_anomalies fortaleza "Fortaleza" = Returned rows /\
    rows <> [] /\
    StronglySorted Z.lt (map an_year rows).
Proof.
  assert (H : exists r, In r fortaleza /\ Row.cidade r = "Fortaleza").
  { eexists. split; [left; reflexivity | reflexivity]. }
  split; [exact H|].
  destruct (proj1 calculate_anomalies_rows fortaleza "Fortaleza" H)
    as (rows & Hret & Hne & Hsorted & _).
  exists rows. auto.
Defined.

(** C6, as stated, fails: all rows of [one_year] are of Natal in 2020, and
    the anomaly of that year is -2^-54 (about -5.55e-17), not 0. *)
Lemma single_year_anomaly_not_zero :
  (forall r, In r one_year ->
             Row.cidade r = "Natal" /\ Row.year r = 2020%Z) /\
  exists m a,
    calculate_anomalies one_year "Natal" = Returned [mkAnomalyRow 2020 m a] /\
    PrimFloat.eqb a 0 = false.
Proof.
  split.
  - intros r [<-|[<-|[<-|[]]]]; split; reflexivity.
  - do 2 eexists. split; reflexivity.
Qed.

(** C1, as the code has it.  For a city without rows [calculate_anomalies]
    raises nothing: it returns the frame without rows. *)
Theorem calculate_anomalies_unknown_city (df : DataFrame) (c : string) :
  (forall r, In r df -> Row.cidade r <> c) ->
  calculate_anomalies df c = Returned [].
Proof.
  intros Hnone. unfold calculate_anomalies.
  replace (filter (in_city c) df) with (@nil Row.t); [reflexivity|].
  symmetry. induction df as [|r df IH]; simpl; [reflexivity|].
  unfold in_city at 1.
  destruct (String.eqb_spec (Row.cidade r) c) as [E|_].
  - exfalso. apply (Hnone r); [now left | exact E].
  - apply IH. intros r' Hr'. apply Hnone. now right.
Qed.

Lemma calculate_anomalies_unknown_city_witness :
  (forall r, In r fortaleza -> Row.cidade r <> "Recife") /\
  calculate_anomalies fortaleza "Recife" = Returned [].
Proof.
  assert (H : forall r, In r fortaleza -> Row.cidade r <> "Recife").
  { intros r [<-|[<-|[<-|[]]]]; discriminate. }
  split; [exact H|].
  exact (@calculate_anomalies_unknown_city fortaleza "Recife" H).
Defined.

(** C1, as stated, fails: no row of [fortaleza] is of Recife, and the call
    returns instead of raising [UnknownCityError]. *)
Lemma anomalies_of_absent_city_not_raised :
  (forall r, In r fortaleza -> Row.cidade r <> "Recife") /\
  calculate_anomalies fortaleza "Recife" <> Raised UnknownCityError.
Proof.
  split.
  - intros r [<-|[<-|[<-|[]]]]; discriminate.
  - discriminate.
Qed.

(* ===================================================================== *)
(** ** [merge] and [calculate_hw_monthly] *)
(* ===================================================================== *)

Section MergeFacts.
Context {R : Type}.

(** Among the sizes of sorted, non-empty groups a key is found once, with
    the size of its group, or not at all. *)
Lemma filter_size_key (m : string) (gs : list (string * list R)) :
  StronglySorted key_lt (map fst gs) ->
  Forall (fun g => snd g <> []) gs ->
  filter (fun kv => (fst kv =? m)%string) (size gs) =
  match group_of m gs with
  | [] => []
  | rs => [(m, length rs)]
  end.
Proof.
  induction gs as [|[k rs] gs IH]; simpl; intros Hs Hne; [reflexivity|].
  inversion Hs as [|? ? Hs' Hall]; subst.
  inversion Hne as [|? ? Hrs Hne']; subst. simpl in Hrs.
  rewrite key_eqb_string.
  destruct (String.eqb_spec k m) as [->|Hkm].
  - rewrite IH by assumption.
    rewrite group_of_above by exact Hall.
    destruct rs; [easy | reflexivity].
  - now apply IH.
Qed.

(** After the left merge and [fillna], every left key stands once, in the
    left frame's order, with the size of its group or 0. *)
Lemma merge_left_size (left : list string) (gs : list (string * list R)) :
  StronglySorted key_lt (map fst gs) ->
  Forall (fun g => snd g <> []) gs ->
  fillna0 (merge_left left (size gs)) =
  map (fun m => (m, length (group_of m gs))) left.
Proof.
  intros Hs Hne. unfold fillna0, merge_left.
  induction left as [|m left IH]; [reflexivity|].
  cbn [flat_map]. rewrite map_app, IH.
  rewrite filter_size_key by assumption.
  change (map (fun m0 => (m0, length (group_of m0 gs))) (m :: left))
    with ((m, length (group_of m gs)) ::
          map (fun m0 => (m0, length (group_of m0 gs))) left).
  destruct (group_of m gs); reflexivity.
Qed.
End MergeFacts.

Lemma filter_map_snd {A B : Type} (f : A -> B) (p : B -> bool) (l : list A) :
  length (filter (fun x => p (snd x)) (map (fun a => (a, f a)) l)) =
  length (filter (fun a => p (f a)) l).
Proof.
  induction l as [|a l IH]; simpl; [reflexivity|].
  destruct (p (f a)); simpl; now rewrite IH.
Qed.

(** What [calculate_hw_monthly] returns, under any locale: the twelve
    English names in order, each with the number of selected rows whose
    derived month name it is. *)
Lemma calculate_hw_monthly_eq (lc : Locale) (df : DataFrame)
    (c : string) (y : Z) :
  calculate_hw_monthly lc df c y =
  Returned (map (fun m => mkMonthlyRow m (hw_named lc df c y m)) all_months).
Proof.
  unfold calculate_hw_monthly. f_equal.
  rewrite merge_left_size
    by (apply groupby_sorted || apply groupby_nonempty).
  rewrite map_map. apply map_ext. intros m. simpl. f_equal.
  rewrite group_of_groupby.
  rewrite (filter_map_snd (fun r => strftime_B lc (Row.index r))
                          (fun s => key_eqb s m)).
  unfold hw_named. rewrite filter_filter. f_equal.
  apply filter_ext. intros r. unfold hw_selected.
  now rewrite key_eqb_string.
Qed.

Lemma hw_monthly_mes (f : string -> nat) (ms : list string) :
  map mes (map (fun m => mkMonthlyRow m (f m)) ms) = ms.
Proof. rewrite map_map. simpl. apply map_id. Qed.

Lemma filter_none {A : Type} (f : A -> bool) (l : list A) :
  (forall x, In x l -> f x = false) -> filter f l = [].
Proof.
  induction l as [|x l IH]; simpl; intros Hall; [reflexivity|].
  rewrite (Hall x) by now left. auto.
Qed.

Lemma C_locale_month (mo mo' : Month) :
  (C_locale mo =? C_locale mo')%string =
  (month_number mo =? month_number mo')%Z.
Proof. destruct mo, mo'; reflexivity. Qed.

Lemma all_months_C_locale : all_months = map C_locale months.
Proof. reflexivity. Qed.

Lemma hw_named_C_locale (df : DataFrame) (c : string) (y : Z) (mo : Month) :
  hw_named C_locale df c y (C_locale mo) = hw_in_month df c y mo.
Proof.
  unfold hw_named, hw_in_month. f_equal. apply filter_ext. intros r.
  unfold strftime_B. now rewrite C_locale_month.
Qed.

(** C3. [calculate_hw_monthly] returns twelve rows, named January to
    December in this order, under any locale; a name that no selected row
    derives has frequency 0; under the locale of the process the frequency
    of a month is the number of selected rows dated in it, so a month
    without heat-wave days of that city and year has frequency 0. *)
Theorem calculate_hw_monthly_twelve (lc : Locale) (df : DataFrame)
    (c : string) (y : Z) :
  exists rows,
    calculate_hw_monthly lc df c y = Returned rows /\
    length rows = 12%nat /\
    map mes rows =
      ["January"; "February"; "March"; "April"; "May"; "June";
       "July"; "August"; "September"; "October"; "November"; "December"] /\
    (forall row, In row rows ->
        (forall r, In r df -> hw_selected c y r = true ->
                   strftime_B lc (Row.index r) <> mes row) ->
        frequencia row = 0%nat) /\
    exists rows',
      calculate_hw_monthly C_locale df c y = Returned rows' /\
      rows' = map (fun mo => mkMonthlyRow (C_locale mo) (hw_in_month df c y mo))
                  months /\
      forall mo,
        (forall r, In r df -> hw_selected c y r = true ->
                   ts_month (Row.index r) <> mo) ->
        In (mkMonthlyRow (C_locale mo) 0) rows'.
Proof.
  eexists. split; [apply calculate_hw_monthly_eq|].
  split; [reflexivity|]. split; [apply hw_monthly_mes|]. split.
  - intros row Hin Hnone. apply in_map_iff in Hin as (m & <- & _). simpl in *.
    unfold hw_named. rewrite filter_none; [reflexivity|].
    intros r Hr. destruct (hw_selected c y r) eqn:Hsel; [|reflexivity].
    simpl. apply String.eqb_neq. now apply Hnone.
  - eexists. split; [apply calculate_hw_monthly_eq|].
    assert (E : map (fun m => mkMonthlyRow m (hw_named C_locale df c y m))
                    all_months =
                map (fun mo => mkMonthlyRow (C_locale mo)
                                            (hw_in_month df c y mo)) months).
    { rewrite all_months_C_locale, map_map. apply map_ext. intros mo.
      now rewrite hw_named_C_locale. }
    split; [exact E|]. rewrite E.
    intros mo Hnone. apply in_map_iff. exists mo. split.
    + f_equal. unfold hw_in_month. rewrite filter_none; [reflexivity|].
      intros r Hr. destruct (hw_selected c y r) eqn:Hsel; [|reflexivity].
      simpl. apply Z.eqb_neq. intros Em. apply (Hnone r Hr Hsel).
      destruct (ts_month (Row.index r)), mo; (reflexivity || discriminate).
    + destruct mo; simpl; tauto.
Qed.

(** The spec's Recife example: two heat-wave days in January, one in March. *)
Example calculate_hw_monthly_recife :
  calculate_hw_monthly C_locale recife "Recife" 2020 =
  Returned [ mkMonthlyRow "January" 2; mkMonthlyRow "February" 0;
             mkMonthlyRow "March" 1; mkMonthlyRow "April" 0;
             mkMonthlyRow "May" 0; mkMonthlyRow "June" 0;
             mkMonthlyRow "July" 0; mkMonthlyRow "August" 0;
             mkMonthlyRow "September" 0; mkMonthlyRow "October" 0;
             mkMonthlyRow "November" 0; mkMonthlyRow "December" 0 ].
Proof. reflexivity. Qed.

(** *** The sum of the twelve frequencies *)

Lemma list_sum_map_add {A : Type} (f g : A -> nat) (l : list A) :
  list_sum (map (fun a => f a + g a)%nat l) =
  (list_sum (map f l) + list_sum (map g l))%nat.
Proof. induction l as [|a l IH]; simpl; [reflexivity | rewrite IH; lia]. Qed.

Lemma list_sum_zero {A : Type} (l : list A) :
  list_sum (map (fun _ => 0%nat) l) = 0%nat.
Proof. induction l; simpl; auto. Qed.

(** A string is counted once among pairwise distinct names if it is one of
    them, and not at all otherwise. *)
Lemma count_once (s : string) (ms : list string) :
  NoDup ms ->
  list_sum (map (fun m => if (s =? m)%string then 1 else 0)%nat ms) =
  if existsb (String.eqb s) ms then 1%nat else 0%nat.
Proof.
  induction 1 as [|m ms Hnotin _ IH]; simpl; [reflexivity|].
  destruct (String.eqb_spec s m) as [->|Hne]; simpl; [|exact IH].
  rewrite IH.
  destruct (existsb (String.eqb m) ms) eqn:E; [|reflexivity].
  apply existsb_exists in E as (m' & Hin & Heq).
  apply String.eqb_eq in Heq. now subst.
Qed.

Lemma all_months_NoDup : NoDup all_months.
Proof.
  unfold all_months.
  repeat (constructor; [simpl; intros H;
    repeat (destruct H as [H|H]; [discriminate|]); exact H|]).
  constructor.
Qed.

(** Under any locale the frequencies add up to the number of selected rows
    whose derived month name is one of the twelve English names. *)
Lemma hw_named_sum (lc : Locale) (df : DataFrame) (c : string) (y : Z) :
  list_sum (map (hw_named lc df c y) all_months) =
  length (filter (fun r => hw_selected c y r &&
                           canonical (strftime_B lc (Row.index r))) df).
Proof.
  unfold hw_named.
  induction df as [|r df IH]; [apply list_sum_zero|].
  cbn [filter].
  transitivity
    (list_sum
       (map (fun m =>
               (if hw_selected c y r && (strftime_B lc (Row.index r) =? m)%string
                then 1 else 0) +
               length (filter (fun r0 => hw_selected c y r0 &&
                         (strftime_B lc (Row.index r0) =? m)%string) df))%nat
            all_months)).
  { apply f_equal, map_ext. intros m.
    now destruct (hw_selected c y r && (strftime_B lc (Row.index r) =? m)%string). }
  rewrite list_sum_map_add, IH.
  destruct (hw_selected c y r); simpl andb.
  - rewrite count_once by apply all_months_NoDup.
    unfold canonical.
    now destruct (existsb (String.eqb (strftime_B lc (Row.index r))) all_months).
  - now rewrite list_sum_zero.
Qed.

Lemma C_locale_canonical (mo : Month) : canonical (C_locale mo) = true.
Proof. destruct mo; reflexivity. Qed.

Lemma hw_monthly_frequencia (f : string -> nat) (ms : list string) :
  map frequencia (map (fun m => mkMonthlyRow m (f m)) ms) = map f ms.
Proof. rewrite map_map. reflexivity. Qed.

(** C4. The twelve frequencies [calculate_hw_monthly] returns add up to
    the number of rows of that city and year whose heat-wave flag is
    true. *)
Theorem calculate_hw_monthly_sum (df : DataFrame) (c : string) (y : Z) :
  exists rows,
    calculate_hw_monthly C_locale df c y = Returned rows /\
    length rows = 12%nat /\
    list_sum (map frequencia rows) = hw_days df c y.
Proof.
  eexists. split; [apply calculate_hw_monthly_eq|]. split; [reflexivity|].
  rewrite hw_monthly_frequencia, hw_named_sum.
  unfold hw_days. f_equal. apply filter_ext. intros r.
  unfold strftime_B. rewrite C_locale_canonical, andb_true_r.
  unfold hw_selected.
  destruct (in_city c r), (in_year y r), (is_hw r); reflexivity.
Qed.

(** *** Month names outside the twelve *)

Lemma not_canonical (s m : string) :
  canonical s = false -> In m all_months -> (s =? m)%string = false.
Proof.
  unfold canonical. intros Hc Hin.
  destruct (s =? m)%string eqn:E; [|reflexivity].
  rewrite <- Hc. symmetry. apply existsb_exists. now exists m.
Qed.

(** C10. A selected row whose derived month name is not one of the twelve
    English names adds nothing: the result is the one of the frame without
    that row, with the same twelve rows and no error; the frequencies count
    only rows with one of the twelve names, and are all 0 when no selected
    row has one. *)
Theorem calculate_hw_monthly_other_names (lc : Locale)
    (df1 df2 : DataFrame) (r : Row.t) (c : string) (y : Z) :
  hw_selected c y r = true ->
  canonical (strftime_B lc (Row.index r)) = false ->
  calculate_hw_monthly lc (df1 ++ r :: df2)%list c y =
    calculate_hw_monthly lc (df1 ++ df2)%list c y /\
  exists rows,
    calculate_hw_monthly lc (df1 ++ r :: df2)%list c y = Returned rows /\
    map mes rows = all_months /\
    list_sum (map frequencia rows) =
      length (filter (fun r' => hw_selected c y r' &&
                                canonical (strftime_B lc (Row.index r')))
                     (df1 ++ df2)%list) /\
    ((forall r', In r' (df1 ++ df2)%list -> hw_selected c y r' = true ->
                 canonical (strftime_B lc (Row.index r')) = false) ->
     map frequencia rows = repeat 0%nat 12).
Proof.
  intros Hsel Hname.
  assert (Hsame : calculate_hw_monthly lc (df1 ++ r :: df2)%list c y =
                  calculate_hw_monthly lc (df1 ++ df2)%list c y).
  { rewrite !calculate_hw_monthly_eq. f_equal.
    apply map_ext_in. intros m Hm. f_equal.
    unfold hw_named. rewrite !filter_app, !length_app. cbn [filter].
    now rewrite Hsel, (not_canonical _ Hname Hm). }
  split; [exact Hsame|].
  rewrite Hsame, calculate_hw_monthly_eq.
  eexists. split; [reflexivity|]. split; [apply hw_monthly_mes|].
  rewrite hw_monthly_frequencia. split; [apply hw_named_sum|].
  intros Hnone.
  change (repeat 0%nat 12) with (map (fun _ : string => 0%nat) all_months).
  apply map_ext_in. intros m Hm.
  unfold hw_named. rewrite filter_none; [reflexivity|].
  intros r' Hr'. destruct (hw_selected c y r') eqn:Hsel'; [|reflexivity].
  simpl. apply not_canonical; [now apply Hnone | exact Hm].
Qed.

Lemma calculate_hw_monthly_other_names_witness :
  hw_selected "Recife" 2020 (obs "Recife" (day 2020 Jan 14) 31 "TRUE") = true /\
  canonical (strftime_B pt_BR
               (Row.index (obs "Recife" (day 2020 Jan 14) 31 "TRUE"))) = false /\
  calculate_hw_monthly pt_BR
    ([] ++ obs "Recife" (day 2020 Jan 14) 31 "TRUE" :: unsorted)%list
    "Recife" 2020 =
  calculate_hw_monthly pt_BR ([] ++ unsorted)%list "Recife" 2020.
Proof.
  split; [reflexivity|]. split; [reflexivity|].
  apply (@calculate_hw_monthly_other_names pt_BR [] unsorted
           (obs "Recife" (day 2020 Jan 14) 31 "TRUE") "Recife" 2020);
    reflexivity.
Defined.

(* ===================================================================== *)
(** ** [update_temp_plot] and its daily rows *)
(* ===================================================================== *)

Lemma filter_Subseq {A : Type} (f : A -> bool) (l : list A) :
  Subseq (filter f l) l.
Proof.
  induction l as [|x l IH]; simpl; [constructor|].
  destruct (f x); now constructor.
Qed.

Lemma filter_map_sorted {A B : Type} (le : B -> B -> Prop) (g : A -> B)
    (f : A -> bool) (l : list A) :
  StronglySorted le (map g l) -> StronglySorted le (map g (filter f l)).
Proof.
  induction l as [|x l IH]; simpl; intros Hs; [constructor|].
  inversion Hs as [|? ? Hs' Hall]; subst.
  destruct (f x); simpl; auto.
  constructor; auto.
  rewrite Forall_forall in *. intros b Hb. apply Hall.
  apply in_map_iff in Hb as (a & <- & Ha). apply filter_In in Ha as [Ha _].
  now apply in_map.
Qed.

Lemma filter_Selection {A : Type} (P : A -> Prop) (f : A -> bool)
    (l : list A) :
  (forall x, f x = true <-> P x) -> Selection P l (filter f l).
Proof.
  intros Hf. induction l as [|x l IH]; simpl; [constructor|].
  destruct (f x) eqn:E.
  - apply Selection_keep; [now apply Hf | exact IH].
  - apply Selection_skip; [|exact IH].
    intros HP. apply Hf in HP. congruence.
Qed.

(** C7, as the code has it.  For every frame [filterDaily] returns the
    rows of the city and year, all of them and no others, each as often as
    the frame has it, in the order the frame has them; so when the frame
    is in ascending timestamp order, the result is too. *)
Theorem filterDaily_rows (df : DataFrame) (c : string) (y : Z) :
  Selection (fun r => Row.cidade r = c /\ Row.year r = y)
            df (filterDaily df c y) /\
  (forall r, In r (filterDaily df c y) <->
             In r df /\ Row.cidade r = c /\ Row.year r = y) /\
  Subseq (filterDaily df c y) df /\
  (StronglySorted ts_le (map Row.index df) ->
   StronglySorted ts_le (map Row.index (filterDaily df c y))).
Proof.
  unfold filterDaily.
  assert (Hmask : forall r, in_city c r && in_year y r = true <->
                            Row.cidade r = c /\ Row.year r = y).
  { intros r. unfold in_city, in_year.
    now rewrite andb_true_iff, String.eqb_eq, Z.eqb_eq. }
  split; [|split; [|split]].
  - now apply filter_Selection.
  - intros r. now rewrite filter_In, Hmask.
  - apply filter_Subseq.
  - apply filter_map_sorted.
Qed.

Lemma filterDaily_rows_witness :
  StronglySorted ts_le (map Row.index fortaleza) /\
  StronglySorted ts_le (map Row.index (filterDaily fortaleza "Fortaleza" 2002)).
Proof.
  assert (H : StronglySorted ts_le (map Row.index fortaleza)).
  { repeat (constructor; [|repeat (constructor; [discriminate|]); constructor]).
    constructor. }
  split; [exact H|].
  exact (proj2 (proj2 (proj2 (filterDaily_rows fortaleza "Fortaleza" 2002))) H).
Defined.

(** C7, as stated, fails: the two rows of [unsorted] are of Recife in 2020
    and are returned as the frame has them, the later day first. *)
Lemma filterDaily_not_ascending :
  filterDaily unsorted "Recife" 2020 = unsorted /\
  ~ StronglySorted ts_le (map Row.index (filterDaily unsorted "Recife" 2020)).
Proof.
  split; [reflexivity|].
  intros Hs. inversion Hs as [|? ? _ Hall]; subst.
  inversion Hall as [|? ? Hle _]; subst.
  apply Hle. reflexivity.
Qed.

(* ===================================================================== *)
(** ** The callbacks and the selection *)
(* ===================================================================== *)

Lemma sorted_unique_In {K : Type} `{OrdLaws K} (k : K) (ks : list K) :
  In k (sorted_unique ks) <-> In k ks.
Proof.
  unfold sorted_unique. rewrite groupby_keys. split.
  - now intros (r & Hr & <-).
  - intros Hin. now exists k.
Qed.

Lemma cidades_In (df : DataFrame) (c : string) :
  In c (cidades df) <-> exists r, In r df /\ Row.cidade r = c.
Proof.
  unfold cidades. rewrite sorted_unique_In, in_map_iff.
  split; intros (r & H1 & H2); exists r; auto.
Qed.

Lemma anos_In (df : DataFrame) (y : Z) :
  In y (anos df) <-> exists r, In r df /\ Row.year r = y.
Proof.
  unfold anos. rewrite sorted_unique_In, in_map_iff.
  split; intros (r & H1 & H2); exists r; auto.
Qed.

Lemma no_rows_of_selection (df : DataFrame) (c : string) (y : Z) :
  (~ In c (cidades df) \/ ~ In y (anos df) \/
   forall r, In r df -> ~ (Row.cidade r = c /\ Row.year r = y)) ->
  forall r, In r df -> in_city c r && in_year y r = false.
Proof.
  intros Hsel r Hr.
  destruct (in_city c r && in_year y r) eqn:E; [|reflexivity].
  apply andb_true_iff in E as [Hc Hy].
  apply String.eqb_eq in Hc. apply Z.eqb_eq in Hy.
  exfalso. destruct Hsel as [Hn|[Hn|Hn]].
  - apply Hn, cidades_In. now exists r.
  - apply Hn, anos_In. now exists r.
  - now apply (Hn r Hr).
Qed.

(** C2, as the code has it.  The callbacks check nothing: for a city that
    is not in [cidades], a year that is not in [anos], or a city and year
    without rows, [update_temp_plot] returns the figure with three empty
    traces and [update_polar_plot] the figure with frequency 0 at each of
    the twelve months. *)
Theorem callbacks_without_rows (lc : Locale) (df : DataFrame)
    (c : string) (y : Z) :
  (~ In c (cidades df) \/ ~ In y (anos df) \/
   forall r, In r df -> ~ (Row.cidade r = c /\ Row.year r = y)) ->
  update_temp_plot df c y =
    Returned
      {| tf_traces := [ mkScatter [] [] "Máxima" "red";
                        mkScatter [] [] "Média" "blue";
                        mkScatter [] [] "Mínima" "green" ];
         tf_title := "Temperaturas em " ++ c ++ " (" ++ str_int y ++ ")" |} /\
  update_polar_plot lc df c y =
    Returned
      {| pf_r := repeat 0%nat 12;
         pf_theta := all_months;
         pf_title :=
           "Frequência de Ondas de Calor em " ++ c ++ " - " ++ str_int y |}.
Proof.
  intros Hsel. pose proof (@no_rows_of_selection df c y Hsel) as Hnone. split.
  - unfold update_temp_plot, filterDaily.
    now rewrite filter_none by exact Hnone.
  - unfold update_polar_plot. rewrite calculate_hw_monthly_eq. cbn [bind].
    rewrite hw_monthly_frequencia, hw_monthly_mes. do 2 f_equal.
    change (repeat 0%nat 12) with (map (fun _ : string => 0%nat) all_months).
    apply map_ext. intros m. unfold hw_named.
    rewrite filter_none; [reflexivity|].
    intros r Hr. unfold hw_selected. now rewrite (Hnone r Hr).
Qed.

Lemma callbacks_without_rows_witness :
  (~ In "Recife" (cidades fortaleza) \/ ~ In 2020%Z (anos fortaleza) \/
   forall r, In r fortaleza ->
             ~ (Row.cidade r = "Recife" /\ Row.year r = 2020%Z)) /\
  update_polar_plot C_locale fortaleza "Recife" 2020 =
    Returned
      {| pf_r := repeat 0%nat 12;
         pf_theta := all_months;
         pf_title := "Frequência de Ondas de Calor em Recife - 2020" |}.
Proof.
  assert (H : ~ In "Recife" (cidades fortaleza) \/
              ~ In 2020%Z (anos fortaleza) \/
              forall r, In r fortaleza ->
                        ~ (Row.cidade r = "Recife" /\ Row.year r = 2020%Z)).
  { left. simpl. intros [E|[]]. discriminate E. }
  split; [exact H|].
  exact (proj2 (@callbacks_without_rows C_locale fortaleza "Recife" 2020 H)).
Defined.

(** C2, as stated, fails: Recife is not in [cidades], 2020 is not in
    [anos], no row is of Recife in 2020, and both callbacks return a figure
    instead of raising [InvalidSelectionError]. *)
Lemma callbacks_no_selection_error :
  ~ In "Recife" (cidades fortaleza) /\
  ~ In 2020%Z (anos fortaleza) /\
  filterDaily fortaleza "Recife" 2020 = [] /\
  update_temp_plot fortaleza "Recife" 2020 <> Raised InvalidSelectionError /\
  update_polar_plot C_locale fortaleza "Recife" 2020
    <> Raised InvalidSelectionError.
Proof.
  split; [|split; [|split; [|split]]].
  - simpl. intros [E|[]]. discriminate E.
  - simpl. intros [E|[E|[E|[]]]]; discriminate E.
  - reflexivity.
  - discriminate.
  - discriminate.
Qed.

(* ===================================================================== *)
(** ** [load_data] and the heat-wave flag *)
(* ===================================================================== *)

Lemma upper_ascii_capital (a b : ascii) :
  (65 <= nat_of_ascii b <= 90)%nat ->
  upper_ascii a = b <-> same_letter a b.
Proof.
  intros Hb. unfold upper_ascii, same_letter.
  pose proof (nat_ascii_bounded a) as Ha.
  destruct ((97 <=? nat_of_ascii a)%nat && (nat_of_ascii a <=? 122)%nat) eqn:E.
  - apply andb_true_iff in E as [E1 E2].
    apply Nat.leb_le in E1, E2. split.
    + intros <-. right. right.
      rewrite nat_ascii_embedding in * by lia. lia.
    + intros [->|[[Hr H]|[Hr H]]]; [lia | lia |].
      rewrite H. replace (nat_of_ascii b + 32 - 32)%nat with (nat_of_ascii b) by lia.
      apply ascii_nat_embedding.
  - split; [now left|].
    intros [E'|[[Hr H]|[Hr H]]]; [exact E' | lia |].
    apply andb_false_iff in E as [E|E]; apply Nat.leb_gt in E; lia.
Qed.

Lemma upper_bytes_eq_iff (s t : string) :
  capital_letters t -> upper_bytes s = t <-> eq_ignore_case s t.
Proof.
  revert t. induction s as [|a s IH]; intros [|b t]; simpl; try easy.
  intros [Hb Ht]. rewrite <- (IH t Ht), <- (@upper_ascii_capital a b Hb).
  split; [now intros [= -> ->] | now intros [-> ->]].
Qed.

(** On ASCII text the case table plays no part. *)
Lemma upper_ascii_text (uc : Casing) (s : string) :
  ascii_text s = true -> upper uc s = upper_bytes s.
Proof.
  unfold upper, ascii_text.
  induction s as [|a s IH]; simpl; [reflexivity|].
  intros Ha. apply andb_true_iff in Ha as [Ha Hs].
  now rewrite Ha, (IH Hs).
Qed.

Lemma eq_ignore_case_ascii (s t : string) :
  capital_letters t -> eq_ignore_case s t -> ascii_text s = true.
Proof.
  unfold ascii_text.
  revert t. induction s as [|a s IH]; intros [|b t]; simpl; try easy.
  intros [Hb Ht] [Hab Hst]. apply andb_true_iff. split; [|now apply (IH t)].
  unfold is_ascii. apply Nat.ltb_lt.
  destruct Hab as [->|[[Ha E]|[_ E]]]; lia.
Qed.

Lemma letters_of_TRUE_app (s t : string) :
  letters_of_TRUE (s ++ t) = letters_of_TRUE s && letters_of_TRUE t.
Proof.
  unfold letters_of_TRUE.
  induction s as [|a s IH]; simpl; [reflexivity|].
  now rewrite IH, andb_assoc.
Qed.

Lemma beyond_ascii_app (s t : string) :
  beyond_ascii (s ++ t) = beyond_ascii s && beyond_ascii t.
Proof.
  unfold beyond_ascii.
  induction s as [|a s IH]; simpl; [reflexivity|].
  now rewrite IH, andb_assoc.
Qed.

Section FlagFacts.
Variable uc : Casing.
Hypothesis Huc : apart_from_TRUE uc.

Lemma upper_run_letters (run : string) :
  beyond_ascii run = true -> letters_of_TRUE (upper_run uc run) = true ->
  run = EmptyString.
Proof.
  destruct run as [|a run]; [reflexivity|]. intros Hrun Hl. simpl in Hl.
  rewrite Huc in Hl; [discriminate | discriminate | exact Hrun].
Qed.

(** An upper case written with T, R, U and E alone comes from ASCII
    text. *)
Lemma upper_from_letters (s run : string) :
  beyond_ascii run = true ->
  letters_of_TRUE (upper_from uc run s) = true ->
  run = EmptyString /\ ascii_text s = true.
Proof.
  revert run. induction s as [|a s IH]; intros run Hrun Hl; simpl in Hl.
  - split; [now apply upper_run_letters | reflexivity].
  - unfold ascii_text. simpl. destruct (is_ascii a) eqn:Ea.
    + rewrite letters_of_TRUE_app in Hl.
      apply andb_true_iff in Hl as [Hl1 Hl2].
      split; [now apply upper_run_letters|].
      unfold letters_of_TRUE in Hl2. simpl in Hl2.
      apply andb_true_iff in Hl2 as [_ Hl2].
      now apply (IH EmptyString).
    + exfalso.
      destruct (IH (run ++ String a EmptyString)%string) as [E _];
        [|exact Hl|now destruct run].
      rewrite beyond_ascii_app, Hrun. unfold beyond_ascii. simpl.
      now rewrite Ea.
Qed.

Lemma upper_TRUE_iff (s : string) :
  upper uc s = "TRUE" <-> eq_ignore_case s "TRUE".
Proof.
  assert (Hcap : capital_letters "TRUE") by (vm_compute; lia).
  split.
  - intros Hs.
    assert (Ha : ascii_text s = true).
    { apply (@upper_from_letters s EmptyString); [reflexivity|].
      unfold upper in Hs. now rewrite Hs. }
    rewrite (@upper_ascii_text uc s Ha) in Hs.
    now apply upper_bytes_eq_iff in Hs.
  - intros Hs.
    rewrite (@upper_ascii_text uc s (@eq_ignore_case_ascii s "TRUE" Hcap Hs)).
    now apply upper_bytes_eq_iff.
Qed.

(** The mask [isHW == "TRUE"] on a loaded row. *)
Lemma is_hw_load_row (r : RawRow.t) :
  is_hw (load_row uc r) = true <->
  eq_ignore_case (str (RawRow.isHW r)) "TRUE".
Proof.
  unfold is_hw, load_row. simpl. rewrite String.eqb_eq.
  apply upper_TRUE_iff.
Qed.
End FlagFacts.

Section GroupByMap.
Context {K A R : Type} `{Ord K}.
Variable key : R -> K.
Variable f : A -> R.

Lemma add_row_map (a : A) (gs : list (K * list A)) :
  add_row key (f a) (map (fun g => (fst g, map f (snd g))) gs) =
  map (fun g => (fst g, map f (snd g))) (add_row (fun x => key (f x)) a gs).
Proof.
  induction gs as [|[k rs] gs IH]; simpl; [reflexivity|].
  destruct (cmp (key (f a)) k); simpl; [reflexivity | reflexivity |].
  now rewrite IH.
Qed.

(** Grouping the images of rows is grouping the rows by the key of
    their image. *)
Lemma groupby_map (l : list A) :
  groupby key (map f l) =
  map (fun g => (fst g, map f (snd g))) (groupby (fun x => key (f x)) l).
Proof.
  induction l as [|a l IH]; simpl; [reflexivity|].
  now rewrite IH, add_row_map.
Qed.

Lemma size_groupby_map (l : list A) :
  size (groupby key (map f l)) = size (groupby (fun x => key (f x)) l).
Proof.
  rewrite groupby_map. unfold size. rewrite map_map.
  apply map_ext. intros [k rs]. simpl. now rewrite length_map.
Qed.
End GroupByMap.

Lemma filter_map_comm {A B : Type} (f : A -> B) (p : B -> bool) (l : list A) :
  filter p (map f l) = map f (filter (fun a => p (f a)) l).
Proof.
  induction l as [|a l IH]; simpl; [reflexivity|].
  destruct (p (f a)); simpl; now rewrite IH.
Qed.

Lemma filter_length_map {A B : Type} (f : A -> B) (p : B -> bool) (l : list A) :
  length (filter p (map f l)) = length (filter (fun a => p (f a)) l).
Proof. now rewrite filter_map_comm, length_map. Qed.

Lemma same_letterb_iff (a b : ascii) :
  same_letterb a b = true <-> same_letter a b.
Proof.
  unfold same_letterb, same_letter, is_capital.
  rewrite !orb_true_iff, !andb_true_iff, Ascii.eqb_eq.
  rewrite !Nat.leb_le, !Nat.eqb_eq. tauto.
Qed.

Lemma eq_ignore_caseb_iff (s t : string) :
  eq_ignore_caseb s t = true <-> eq_ignore_case s t.
Proof.
  revert t. induction s as [|a s IH]; intros [|b t]; simpl; try easy.
  now rewrite andb_true_iff, same_letterb_iff, IH.
Qed.

Lemma reads_true_int (z : Z) : reads_true (CInt z) = false.
Proof.
  unfold reads_true, str, str_int, NilZero.string_of_int,
    NilZero.string_of_uint.
  destruct (Z.to_int z) as [[]|[]]; reflexivity.
Qed.

Lemma reads_true_float (neg : bool) (whole : N) (tail : string) :
  reads_true (CFloat neg whole tail) = false.
Proof.
  unfold reads_true, str, NilZero.string_of_uint.
  destruct neg; destruct (N.to_uint whole); reflexivity.
Qed.

Section SheetFacts.
Variable uc : Casing.
Hypothesis Huc : apart_from_TRUE uc.

Lemma hw_summary_of_sheet (sheet : Sheet) :
  calculate_hw_summary (map (load_row uc) sheet) =
  Returned
    (map (fun g => mkSummaryRow (fst (fst g)) (snd (fst g)) (snd g))
         (size (groupby (fun r => (RawRow.cidade r, RawRow.year r))
                        (filter (fun r => is_hw (load_row uc r)) sheet)))).
Proof.
  unfold calculate_hw_summary.
  now rewrite filter_map_comm, size_groupby_map.
Qed.

(** The mask [isHW == "TRUE"] on a loaded row is the reading of the raw
    flag. *)
Lemma is_hw_reads_true (raw : RawRow.t) :
  is_hw (load_row uc raw) = reads_true (RawRow.isHW raw).
Proof.
  apply Bool.eq_iff_eq_true.
  rewrite (is_hw_load_row Huc). unfold reads_true.
  now rewrite eq_ignore_caseb_iff.
Qed.

Lemma hw_selected_flagged (c : string) (y : Z) (raw : RawRow.t) :
  hw_selected c y (load_row uc raw) = flagged c y raw.
Proof.
  unfold hw_selected, flagged. now rewrite is_hw_reads_true.
Qed.

Lemma hw_summary_row_of_sheet (sheet : Sheet) (c : string) (y : Z) (n : nat) :
  In (mkSummaryRow c y n)
     (map (fun g => mkSummaryRow (fst (fst g)) (snd (fst g)) (snd g))
          (size (groupby (fun r => (RawRow.cidade r, RawRow.year r))
                         (filter (fun r => is_hw (load_row uc r)) sheet)))) <->
  n = flagged_days sheet c y /\ n <> 0%nat.
Proof.
  assert (Hdays :
    length (filter (fun r => key_eqb (RawRow.cidade r, RawRow.year r) (c, y))
                   (filter (fun r => is_hw (load_row uc r)) sheet)) =
    flagged_days sheet c y).
  { rewrite filter_filter. unfold flagged_days. f_equal.
    apply filter_ext. intros r. unfold flagged.
    rewrite key_eqb_pair, key_eqb_string, key_eqb_Z, is_hw_reads_true.
    now destruct (reads_true (RawRow.isHW r)); rewrite ?andb_true_r, ?andb_false_r. }
  rewrite in_map_iff. split.
  - intros ([[c' y'] n'] & [= -> -> ->] & Hin).
    apply size_In in Hin. now rewrite Hdays in Hin.
  - intros Hn. exists ((c, y), n). split; [reflexivity|].
    apply size_In. now rewrite Hdays.
Qed.
End SheetFacts.

Lemma caseless_apart : apart_from_TRUE caseless.
Proof.
  intros [|a run] Hne Hrun; [easy|].
  unfold caseless, letters_of_TRUE. simpl.
  unfold beyond_ascii in Hrun. simpl in Hrun.
  apply andb_true_iff in Hrun as [Ha _].
  apply andb_false_iff. left.
  destruct a as [[] [] [] [] [] [] [] []]; try reflexivity; discriminate.
Qed.

(** C8. What counts as a heat-wave day is decided by the raw flag alone,
    read ignoring case: the frame [load_data] returns has the rows of the
    sheet in order, each with [isHW == "TRUE"] exactly when [str] of its
    raw flag is "TRUE" in some mix of cases; [calculate_hw_summary] counts,
    for each city and year, exactly the sheet rows whose raw flag reads so,
    and [calculate_hw_monthly] exactly those among them of each month name.
    The boolean true and the texts "true", "True", "TRUE" read so; the
    boolean false, "false", "FALSE", "", " TRUE", numbers, infinities and
    empty cells do not.  [str.upper] is taken with the case table of the
    interpreter, of which this is used: no text of characters beyond ASCII
    has an upper case written with the letters T, R, U, E alone. *)
Theorem heat_wave_flag (uc : Casing) (sheet : Sheet) (lc : Locale)
    (c : string) (y : Z) :
  apart_from_TRUE uc ->
  (forall x : cell,
      reads_true x = true <-> eq_ignore_case (str x) "TRUE") /\
  (reads_true (CBool true) = true /\
   reads_true (CStr "true") = true /\
   reads_true (CStr "True") = true /\
   reads_true (CStr "TRUE") = true) /\
  (reads_true (CBool false) = false /\
   reads_true (CStr "false") = false /\
   reads_true (CStr "FALSE") = false /\
   reads_true (CStr "") = false /\
   reads_true (CStr " TRUE") = false /\
   reads_true CNaN = false /\
   (forall z, reads_true (CInt z) = false) /\
   (forall neg whole tail, reads_true (CFloat neg whole tail) = false) /\
   (forall neg, reads_true (CInf neg) = false)) /\
  exists df,
    load_data uc sheet = Returned df /\
    Forall2 (fun raw r =>
               Row.cidade r = RawRow.cidade raw /\
               Row.index r = RawRow.index raw /\
               Row.year r = RawRow.year raw /\
               is_hw r = reads_true (RawRow.isHW raw))
            sheet df /\
    (exists rows,
        calculate_hw_summary df = Returned rows /\
        forall c' y' n,
          In (mkSummaryRow c' y' n) rows <->
          n = flagged_days sheet c' y' /\ n <> 0%nat) /\
    (exists rows,
        calculate_hw_monthly lc df c y = Returned rows /\
        rows = map (fun m => mkMonthlyRow m (flagged_named lc sheet c y m))
                   all_months).
Proof.
  intros Huc. split; [|split; [|split]].
  - intros x. apply eq_ignore_caseb_iff.
  - repeat split.
  - repeat split; try reflexivity.
    + apply reads_true_int.
    + apply reads_true_float.
    + intros [|]; reflexivity.
  - exists (map (load_row uc) sheet). split; [reflexivity|]. split; [|split].
    + induction sheet as [|raw sheet IH]; simpl; constructor; auto.
      repeat split. now apply is_hw_reads_true.
    + rewrite hw_summary_of_sheet. eexists. split; [reflexivity|].
      intros c' y' n. now apply hw_summary_row_of_sheet.
    + rewrite calculate_hw_monthly_eq. eexists. split; [reflexivity|].
      apply map_ext. intros m. f_equal. unfold hw_named, flagged_named.
      rewrite filter_length_map. f_equal. apply filter_ext. intros raw.
      now rewrite hw_selected_flagged.
Qed.

Lemma heat_wave_flag_witness :
  apart_from_TRUE caseless /\
  exists df,
    load_data caseless recife_sheet = Returned df /\
    map is_hw df = [true; true; false; true; false; false] /\
    calculate_hw_summary df = Returned [mkSummaryRow "Recife" 2020 3] /\
    calculate_hw_monthly C_locale df "Recife" 2020 =
    Returned
      (map (fun m => mkMonthlyRow m
                       (flagged_named C_locale recife_sheet "Recife" 2020 m))
           all_months).
Proof.
  split; [exact caseless_apart|].
  destruct (@heat_wave_flag caseless recife_sheet C_locale "Recife" 2020%Z
              caseless_apart)
    as (_ & _ & _ & df & Hload & _ & _ & rows & Hrows & ->).
  exists df. injection Hload as <-.
  split; [reflexivity|]. split; [reflexivity|]. split; [reflexivity|exact Hrows].
Defined.

(* ===================================================================== *)
(** ** Further properties of the aggregators *)
(* ===================================================================== *)

(** *** Lists in strict order, and rows in another order *)

Lemma sorted_same_members {A : Type} (R : A -> A -> Prop) :
  (forall a, ~ R a a) ->
  (forall a b c, R a b -> R b c -> R a c) ->
  forall l1 l2 : list A,
    StronglySorted R l1 -> StronglySorted R l2 ->
    (forall x, In x l1 <-> In x l2) -> l1 = l2.
Proof.
  intros Hirr Htr.
  induction l1 as [|a l1 IH]; intros [|b l2] H1 H2 Hmem.
  - reflexivity.
  - exfalso. apply (Hmem b). now left.
  - exfalso. apply (Hmem a). now left.
  - inversion H1 as [|? ? H1' Ha]; subst.
    inversion H2 as [|? ? H2' Hb]; subst.
    rewrite Forall_forall in Ha, Hb.
    assert (a = b) as ->.
    { destruct (proj1 (Hmem a) (or_introl eq_refl)) as [E|Hin]; [now symmetry|].
      destruct (proj2 (Hmem b) (or_introl eq_refl)) as [E|Hin']; [exact E|].
      exfalso. apply (Hirr a). eauto. }
    f_equal. apply IH; auto.
    intros x. split; intros Hx.
    + destruct (proj1 (Hmem x) (or_intror Hx)) as [E|Hin]; [|exact Hin].
      subst x. exfalso. apply (Hirr b). auto.
    + destruct (proj2 (Hmem x) (or_intror Hx)) as [E|Hin]; [|exact Hin].
      subst x. exfalso. apply (Hirr b). auto.
Qed.

Lemma StronglySorted_map {A B : Type} (R : B -> B -> Prop) (f : A -> B)
    (l : list A) :
  StronglySorted R (map f l) ->
  StronglySorted (fun a b => R (f a) (f b)) l.
Proof.
  induction l as [|a l IH]; simpl; intros Hs; [constructor|].
  inversion Hs as [|? ? Hs' Hall]; subst.
  constructor; [auto|].
  rewrite Forall_forall in *. intros x Hx. apply Hall. now apply in_map.
Qed.

Lemma Permutation_filter {A : Type} (f : A -> bool) (l l' : list A) :
  Permutation l l' -> Permutation (filter f l) (filter f l').
Proof.
  induction 1 as [|x l l' _ IH|x y l|l l' l'' _ IH1 _ IH2]; simpl.
  - constructor.
  - destruct (f x); [now constructor | exact IH].
  - destruct (f x), (f y); try apply Permutation_refl. apply perm_swap.
  - now transitivity (filter f l').
Qed.

Section GroupByOrder.
Context {K R : Type} `{OrdLaws K}.
Variable key : R -> K.

Lemma size_add_row_sum (r : R) (gs : list (K * list R)) :
  list_sum (map snd (size (add_row key r gs))) =
  S (list_sum (map snd (size gs))).
Proof.
  induction gs as [|[k rs] gs IH]; simpl; [reflexivity|].
  destruct (cmp (key r) k); simpl; [reflexivity | reflexivity |].
  rewrite IH. lia.
Qed.

(** The group sizes add up to the number of rows. *)
Lemma size_groupby_sum (rows : list R) :
  list_sum (map snd (size (groupby key rows))) = length rows.
Proof.
  induction rows as [|r rows IH]; simpl; [reflexivity|].
  now rewrite size_add_row_sum, IH.
Qed.

(** The group sizes do not depend on the order of the rows. *)
Lemma size_groupby_perm (l l' : list R) :
  Permutation l l' -> size (groupby key l) = size (groupby key l').
Proof.
  intros Hp.
  apply (sorted_same_members (R := fun a b : K * nat => key_lt (fst a) (fst b))).
  - intros a. apply key_lt_irrefl.
  - intros a b c. apply key_lt_trans.
  - apply StronglySorted_map. rewrite size_keys. apply groupby_sorted.
  - apply StronglySorted_map. rewrite size_keys. apply groupby_sorted.
  - intros [k n]. rewrite !size_In.
    now rewrite (Permutation_length (Permutation_filter _ Hp)).
Qed.

Lemma groupby_nil (rows : list R) : groupby key rows = [] -> rows = [].
Proof.
  destruct rows as [|r rows]; [reflexivity|]. intros E. exfalso.
  assert (Hin : In (key r) (map fst (groupby key (r :: rows)))).
  { apply groupby_keys. exists r. split; [now left | reflexivity]. }
  now rewrite E in Hin.
Qed.
End GroupByOrder.

Lemma hw_summary_counts (df : DataFrame) :
  exists rows,
    calculate_hw_summary df = Returned rows /\
    map dias_hw rows =
      map snd (size (groupby (fun r => (Row.cidade r, Row.year r))
                             (filter is_hw df))) /\
    length rows = length (groupby (fun r => (Row.cidade r, Row.year r))
                                  (filter is_hw df)).
Proof.
  eexists. split; [reflexivity|]. split.
  - now rewrite map_map.
  - unfold size. now rewrite !length_map.
Qed.

(** X1. Every heat-wave day is counted once: the counts of the summary add
    up to the number of rows whose flag is true. *)
Theorem calculate_hw_summary_total (df : DataFrame) :
  exists rows,
    calculate_hw_summary df = Returned rows /\
    list_sum (map dias_hw rows) = length (filter is_hw df).
Proof.
  destruct (hw_summary_counts df) as (rows & Hret & Hcounts & _).
  exists rows. split; [exact Hret|].
  rewrite Hcounts. apply size_groupby_sum.
Qed.

(** X2. The summary does not depend on the order of the rows of the
    frame. *)
Theorem calculate_hw_summary_perm (df df' : DataFrame) :
  Permutation df df' ->
  calculate_hw_summary df = calculate_hw_summary df'.
Proof.
  intros Hp. unfold calculate_hw_summary. do 2 f_equal.
  apply size_groupby_perm. now apply Permutation_filter.
Qed.

Lemma calculate_hw_summary_perm_witness :
  Permutation recife (rev recife) /\
  calculate_hw_summary recife = calculate_hw_summary (rev recife).
Proof.
  assert (H : Permutation recife (rev recife)) by apply Permutation_rev.
  split; [exact H|].
  exact (@calculate_hw_summary_perm recife (rev recife) H).
Defined.

(** X3. The summary has no rows exactly when no row of the frame has the
    flag true; an empty frame is one such case. *)
Theorem calculate_hw_summary_empty (df : DataFrame) :
  calculate_hw_summary df = Returned [] <->
  (forall r, In r df -> is_hw r = false).
Proof.
  destruct (hw_summary_counts df) as (rows & Hret & _ & Hlen).
  rewrite Hret. split.
  - intros [= ->]. simpl in Hlen. symmetry in Hlen.
    apply length_zero_iff_nil, groupby_nil in Hlen.
    intros r Hr. destruct (is_hw r) eqn:E; [|reflexivity].
    assert (Hin : In r (filter is_hw df)) by now apply filter_In.
    now rewrite Hlen in Hin.
  - intros Hnone. f_equal. apply length_zero_iff_nil.
    rewrite Hlen, filter_none by exact Hnone. reflexivity.
Qed.

(** *** The monthly frequencies *)

(** X6. Under a locale none of whose month names is one of the twelve
    English names, every frequency is 0, whatever the frame holds. *)
Theorem calculate_hw_monthly_foreign_locale (lc : Locale) (df : DataFrame)
    (c : string) (y : Z) :
  (forall mo, canonical (lc mo) = false) ->
  calculate_hw_monthly lc df c y =
  Returned (map (fun m => mkMonthlyRow m 0) all_months).
Proof.
  intros Hlc. rewrite calculate_hw_monthly_eq. f_equal.
  apply map_ext_in. intros m Hm. f_equal.
  unfold hw_named. rewrite filter_none; [reflexivity|].
  intros r _. unfold strftime_B.
  rewrite (not_canonical _ (Hlc (ts_month (Row.index r))) Hm).
  apply andb_false_r.
Qed.

Lemma calculate_hw_monthly_foreign_locale_witness :
  (forall mo, canonical (pt_BR mo) = false) /\
  calculate_hw_monthly pt_BR recife "Recife" 2020 =
  Returned (map (fun m => mkMonthlyRow m 0) all_months).
Proof.
  assert (H : forall mo, canonical (pt_BR mo) = false)
    by (intros mo; destruct mo; reflexivity).
  split; [exact H|].
  exact (@calculate_hw_monthly_foreign_locale pt_BR recife "Recife" 2020 H).
Defined.

(** X7. The monthly frequencies depend on the selected rows only, and not
    on their order. *)
Theorem calculate_hw_monthly_perm (lc : Locale) (df df' : DataFrame)
    (c : string) (y : Z) :
  Permutation (filter (hw_selected c y) df) (filter (hw_selected c y) df') ->
  calculate_hw_monthly lc df c y = calculate_hw_monthly lc df' c y.
Proof.
  intros Hp. rewrite !calculate_hw_monthly_eq. f_equal.
  apply map_ext. intros m. f_equal. unfold hw_named.
  rewrite <- !filter_filter. apply Permutation_length.
  now apply Permutation_filter.
Qed.

Lemma calculate_hw_monthly_perm_witness :
  Permutation (filter (hw_selected "Recife" 2020) (fortaleza ++ unsorted)%list)
              (filter (hw_selected "Recife" 2020) (rev unsorted)) /\
  calculate_hw_monthly C_locale (fortaleza ++ unsorted)%list "Recife" 2020 =
  calculate_hw_monthly C_locale (rev unsorted) "Recife" 2020.
Proof.
  assert (H : Permutation
                (filter (hw_selected "Recife" 2020) (fortaleza ++ unsorted)%list)
                (filter (hw_selected "Recife" 2020) (rev unsorted))).
  { change (Permutation unsorted (rev unsorted)). apply Permutation_rev. }
  split; [exact H|].
  exact (@calculate_hw_monthly_perm C_locale (fortaleza ++ unsorted)%list
           (rev unsorted) "Recife" 2020 H).
Defined.

Lemma hw_named_total (df : DataFrame) (c : string) (y : Z) :
  list_sum (map (hw_named C_locale df c y) all_months) = hw_days df c y.
Proof.
  rewrite hw_named_sum. unfold hw_days. f_equal. apply filter_ext. intros r.
  unfold strftime_B. rewrite C_locale_canonical, andb_true_r.
  unfold hw_selected.
  destruct (in_city c r), (in_year y r), (is_hw r); reflexivity.
Qed.

Lemma hw_summary_row (df : DataFrame) (c : string) (y : Z) (n : nat) :
  In (mkSummaryRow c y n)
     (map (fun g => mkSummaryRow (fst (fst g)) (snd (fst g)) (snd g))
          (size (groupby (fun r => (Row.cidade r, Row.year r))
                         (filter is_hw df)))) <->
  n = hw_days df c y /\ n <> 0%nat.
Proof.
  assert (Hdays :
    length (filter (fun r => key_eqb (Row.cidade r, Row.year r) (c, y))
                   (filter is_hw df)) = hw_days df c y).
  { rewrite filter_filter. unfold hw_days. f_equal.
    apply filter_ext. intros r. unfold in_city, in_year.
    now rewrite key_eqb_pair, key_eqb_string, key_eqb_Z, andb_assoc. }
  rewrite in_map_iff. split.
  - intros ([[c' y'] n'] & [= -> -> ->] & Hin).
    apply size_In in Hin. now rewrite Hdays in Hin.
  - intros Hn. exists ((c, y), n). split; [reflexivity|].
    apply size_In. now rewrite Hdays.
Qed.

Lemma list_sum_all_zero (ns : list nat) :
  list_sum ns = 0%nat -> ns = repeat 0%nat (length ns).
Proof.
  induction ns as [|n ns IH]; simpl; [reflexivity|].
  intros E. assert (n = 0%nat) as -> by lia. f_equal. apply IH. lia.
Qed.

(** X8. The polar chart and the summary agree: for a city and year with a
    row in the summary, the twelve values of the chart add up to the count
    of that row; for a city and year without one, the twelve values are
    all 0. *)
Theorem polar_plot_agrees_with_summary (df : DataFrame) (c : string) (y : Z) :
  exists fig rows,
    update_polar_plot C_locale df c y = Returned fig /\
    calculate_hw_summary df = Returned rows /\
    (forall n, In (mkSummaryRow c y n) rows -> list_sum (pf_r fig) = n) /\
    (~ In (c, y) (map summary_key rows) -> pf_r fig = repeat 0%nat 12).
Proof.
  unfold update_polar_plot. rewrite calculate_hw_monthly_eq. cbn [bind].
  do 2 eexists. split; [reflexivity|]. split; [reflexivity|].
  cbn [pf_r]. rewrite hw_monthly_frequencia. split.
  - intros n Hin. apply hw_summary_row in Hin as [-> _].
    apply hw_named_total.
  - intros Hnot.
    assert (Hzero : hw_days df c y = 0%nat).
    { destruct (hw_days df c y) as [|k] eqn:E; [reflexivity|].
      exfalso. apply Hnot. apply in_map_iff.
      exists (mkSummaryRow c y (S k)). split; [reflexivity|].
      apply hw_summary_row. now rewrite E. }
    rewrite <- hw_named_total in Hzero.
    apply list_sum_all_zero in Hzero. now rewrite Hzero, length_map.
Qed.

(** *** [load_data] *)

Lemma upper_ascii_not_lower (c : ascii) : not_lower (upper_ascii c).
Proof.
  unfold not_lower, upper_ascii.
  pose proof (nat_ascii_bounded c) as Hc.
  destruct ((97 <=? nat_of_ascii c)%nat && (nat_of_ascii c <=? 122)%nat) eqn:E.
  - apply andb_true_iff in E as [E1 E2]. apply Nat.leb_le in E1, E2.
    rewrite nat_ascii_embedding by lia. lia.
  - apply andb_false_iff in E as [E|E]; apply Nat.leb_gt in E; lia.
Qed.

Lemma upper_ascii_same_letter (c : ascii) : same_letter c (upper_ascii c).
Proof.
  unfold same_letter, upper_ascii.
  destruct ((97 <=? nat_of_ascii c)%nat && (nat_of_ascii c <=? 122)%nat) eqn:E;
    [|now left].
  apply andb_true_iff in E as [E1 E2]. apply Nat.leb_le in E1, E2.
  right. right. rewrite nat_ascii_embedding by lia. lia.
Qed.

Lemma upper_ascii_is_ascii (c : ascii) :
  is_ascii c = true -> is_ascii (upper_ascii c) = true.
Proof.
  unfold is_ascii, upper_ascii. rewrite !Nat.ltb_lt. intros Hc.
  destruct ((97 <=? nat_of_ascii c)%nat && (nat_of_ascii c <=? 122)%nat) eqn:E;
    [|exact Hc].
  apply andb_true_iff in E as [E1 E2]. apply Nat.leb_le in E1, E2.
  rewrite nat_ascii_embedding by lia. lia.
Qed.

Lemma upper_bytes_no_lower (s : string) : no_lower (upper_bytes s).
Proof.
  induction s as [|c s IH]; simpl; [exact I|].
  split; [apply upper_ascii_not_lower | exact IH].
Qed.

Lemma upper_bytes_same (s : string) : eq_ignore_case s (upper_bytes s).
Proof.
  induction s as [|c s IH]; simpl; [exact I|].
  split; [apply upper_ascii_same_letter | exact IH].
Qed.

Lemma upper_bytes_ascii (s : string) :
  ascii_text s = true -> ascii_text (upper_bytes s) = true.
Proof.
  unfold ascii_text. induction s as [|c s IH]; simpl; [reflexivity|].
  rewrite !andb_true_iff. intros [Hc Hs].
  split; [now apply upper_ascii_is_ascii | now apply IH].
Qed.

Lemma upper_bytes_fixed (s : string) : no_lower s -> upper_bytes s = s.
Proof.
  induction s as [|c s IH]; simpl; [reflexivity|].
  intros [Hc Hs]. rewrite (IH Hs). f_equal.
  unfold upper_ascii, not_lower in *.
  destruct ((97 <=? nat_of_ascii c)%nat && (nat_of_ascii c <=? 122)%nat) eqn:E;
    [|reflexivity].
  apply andb_true_iff in E as [E1 E2]. apply Nat.leb_le in E1, E2. lia.
Qed.

(** On ASCII text [str.upper] twice is [str.upper] once. *)
Lemma upper_idempotent (uc : Casing) (s : string) :
  ascii_text s = true -> upper uc (upper uc s) = upper uc s.
Proof.
  intros Hs. rewrite (@upper_ascii_text uc s Hs).
  rewrite (@upper_ascii_text uc (upper_bytes s) (@upper_bytes_ascii s Hs)).
  apply upper_bytes_fixed, upper_bytes_no_lower.
Qed.

(** X10. For a sheet whose flags are written in ASCII, under any case
    table: [load_data] returns a frame with the rows of the sheet in
    order, every column but the flag as the sheet has it; the flag it
    stores is the text of the raw flag up to the case of its letters and
    has no lower-case letter; and loading the loaded frame again, its
    flags as text, returns the same frame. *)
Theorem load_data_normal_form (uc : Casing) (sheet : Sheet) :
  Forall (fun raw => ascii_text (str (RawRow.isHW raw)) = true) sheet ->
  exists df,
    load_data uc sheet = Returned df /\
    Forall2 (fun raw r =>
               Row.cidade r = RawRow.cidade raw /\
               Row.index r = RawRow.index raw /\
               Row.year r = RawRow.year raw /\
               Row.tempMax r = RawRow.tempMax raw /\
               Row.tempMed r = RawRow.tempMed raw /\
               Row.tempMin r = RawRow.tempMin raw /\
               Row.Lat r = RawRow.Lat raw /\
               Row.Long r = RawRow.Long raw /\
               eq_ignore_case (str (RawRow.isHW raw)) (Row.isHW r) /\
               no_lower (Row.isHW r))
            sheet df /\
    load_data uc (map as_sheet_row df) = Returned df.
Proof.
  intros Hascii. exists (map (load_row uc) sheet).
  split; [reflexivity|]. split.
  - induction Hascii as [|raw sheet Hraw _ IH]; simpl; constructor;
      [|exact IH].
    repeat (split; [reflexivity|]). simpl.
    rewrite (@upper_ascii_text uc _ Hraw).
    split; [apply upper_bytes_same | apply upper_bytes_no_lower].
  - unfold load_data. apply f_equal. rewrite map_map.
    induction Hascii as [|raw sheet Hraw _ IH]; simpl; [reflexivity|].
    rewrite IH. f_equal.
    unfold load_row, as_sheet_row. simpl.
    now rewrite (@upper_idempotent uc _ Hraw).
Qed.

Lemma load_data_normal_form_witness :
  Forall (fun raw => ascii_text (str (RawRow.isHW raw)) = true) natal_sheet /\
  exists df,
    load_data caseless natal_sheet = Returned df /\
    map Row.isHW df = ["TRUE"; "TRUE"; "FALSE"; "1.0"; "NAN"] /\
    load_data caseless (map as_sheet_row df) = Returned df.
Proof.
  assert (H : Forall (fun raw => ascii_text (str (RawRow.isHW raw)) = true)
                     natal_sheet) by (repeat constructor).
  split; [exact H|].
  destruct (@load_data_normal_form caseless natal_sheet H)
    as (df & Hload & _ & Hagain).
  exists df. split; [exact Hload|]. split; [|exact Hagain].
  injection Hload as <-. reflexivity.
Defined.

(* ===================================================================== *)
(** ** Start-up: the known cities and years, and the layout *)
(* ===================================================================== *)

Lemma sorted_unique_sorted {K : Type} `{OrdLaws K} (ks : list K) :
  StronglySorted key_lt (sorted_unique ks).
Proof. apply groupby_sorted. Qed.

Lemma sorted_unique_perm {K : Type} `{OrdLaws K} (ks ks' : list K) :
  Permutation ks ks' -> sorted_unique ks = sorted_unique ks'.
Proof.
  intros Hp. apply (sorted_same_members (R := key_lt)).
  - intros a. apply key_lt_irrefl.
  - intros a b c. apply key_lt_trans.
  - apply sorted_unique_sorted.
  - apply sorted_unique_sorted.
  - intros k. rewrite !sorted_unique_In.
    split; apply Permutation_in; [exact Hp | now apply Permutation_sym].
Qed.

(** X11. [cidades] and [anos] list the cities and the years of the frame,
    each once, in strictly ascending order, and do not depend on the order
    of the rows. *)
Theorem known_cities_and_years (df : DataFrame) :
  StronglySorted (fun a b => (a <? b)%string = true) (cidades df) /\
  NoDup (cidades df) /\
  (forall c, In c (cidades df) <-> exists r, In r df /\ Row.cidade r = c) /\
  StronglySorted Z.lt (anos df) /\
  NoDup (anos df) /\
  (forall y, In y (anos df) <-> exists r, In r df /\ Row.year r = y) /\
  (forall df', Permutation df df' ->
               cidades df' = cidades df /\ anos df' = anos df).
Proof.
  split; [|split; [|split; [|split; [|split; [|split]]]]].
  - eapply StronglySorted_impl; [|apply sorted_unique_sorted].
    intros a b. unfold key_lt, cmp, Ord_string, String.ltb. now intros ->.
  - apply sorted_keys_NoDup, sorted_unique_sorted.
  - apply cidades_In.
  - eapply StronglySorted_impl; [|apply sorted_unique_sorted].
    intros a b. unfold key_lt, cmp, Ord_Z. apply Z.compare_lt_iff.
  - apply sorted_keys_NoDup, sorted_unique_sorted.
  - apply anos_In.
  - intros df' Hp. unfold cidades, anos. split; symmetry;
      apply sorted_unique_perm; now apply Permutation_map.
Qed.

(** *** [min], [max] and [xs[0]] *)

Lemma fold_min_spec (xs : list Z) (x : Z) :
  In (fold_left Z.min xs x) (x :: xs) /\
  forall e, In e (x :: xs) -> (fold_left Z.min xs x <= e)%Z.
Proof.
  revert x. induction xs as [|a xs IH]; intros x; simpl.
  - split; [now left|]. intros e [<-|[]]. lia.
  - destruct (IH (Z.min x a)) as [Hin Hle]. split.
    + destruct Hin as [E|Hin]; [|now right; right].
      rewrite <- E. destruct (Z.min_spec x a) as [[_ ->]|[_ ->]]; auto.
    + intros e He.
      assert (Hm : (fold_left Z.min xs (Z.min x a) <= Z.min x a)%Z)
        by (apply Hle; now left).
      destruct He as [<-|[<-|He]]; [lia | lia |].
      apply Hle. now right.
Qed.

Lemma fold_max_spec (xs : list Z) (x : Z) :
  In (fold_left Z.max xs x) (x :: xs) /\
  forall e, In e (x :: xs) -> (e <= fold_left Z.max xs x)%Z.
Proof.
  revert x. induction xs as [|a xs IH]; intros x; simpl.
  - split; [now left|]. intros e [<-|[]]. lia.
  - destruct (IH (Z.max x a)) as [Hin Hle]. split.
    + destruct Hin as [E|Hin]; [|now right; right].
      rewrite <- E. destruct (Z.max_spec x a) as [[_ ->]|[_ ->]]; auto.
    + intros e He.
      assert (Hm : (Z.max x a <= fold_left Z.max xs (Z.max x a))%Z)
        by (apply Hle; now left).
      destruct He as [<-|[<-|He]]; [lia | lia |].
      apply Hle. now right.
Qed.

Lemma cidades_nonempty (df : DataFrame) : df <> [] -> cidades df <> [].
Proof.
  destruct df as [|r df]; [easy|]. intros _ E.
  assert (Hin : In (Row.cidade r) (cidades (r :: df))).
  { apply cidades_In. exists r. split; [now left | reflexivity]. }
  now rewrite E in Hin.
Qed.

Lemma anos_nonempty (df : DataFrame) : df <> [] -> anos df <> [].
Proof.
  destruct df as [|r df]; [easy|]. intros _ E.
  assert (Hin : In (Row.year r) (anos (r :: df))).
  { apply anos_In. exists r. split; [now left | reflexivity]. }
  now rewrite E in Hin.
Qed.

(** The layout of a frame with rows, written out. *)
Lemma app_layout_rows (df : DataFrame) (s : list SummaryRow) :
  df <> [] ->
  exists c0 cs y0 ys,
    cidades df = c0 :: cs /\
    anos df = y0 :: ys /\
    app_layout df s =
    Val {| tab_map :=
             mkMapTab (station_markers df)
                      (series_mean (map Row.Lat df), series_mean (map Row.Long df)) 6;
           tab_temp :=
             (mkDropdown (cidades df) c0 "cidade-temp",
              mkSlider (fold_left Z.min ys y0) (fold_left Z.max ys y0) 1
                       (fold_left Z.max ys y0)
                       (map (fun a => (a, str_int a)) (anos df)) "ano-temp");
           tab_anomaly := mkDropdown (cidades df) c0 "cidade-anomalia";
           tab_heatmap :=
             mkHeatmapFigure (map hs_year s) (map hs_cidade s) (map dias_hw s);
           tab_polar :=
             (mkDropdown (cidades df) c0 "cidade-polar",
              mkDropdown (anos df) (fold_left Z.max ys y0) "ano-polar") |}.
Proof.
  intros Hne.
  pose proof (cidades_nonempty Hne) as Hc.
  pose proof (anos_nonempty Hne) as Hy.
  unfold app_layout.
  destruct (cidades df) as [|c0 cs]; [easy|].
  destruct (anos df) as [|y0 ys]; [easy|].
  exists c0, cs, y0, ys. repeat split.
Qed.

(** X12. On a frame without rows building the layout raises IndexError,
    at [cidades[0]], whatever the summary holds: [min(anos)] and its
    ValueError are not reached.  So a layout that has been built belongs
    to a frame with rows, and its dropdowns offer at least one city and
    one year. *)
Theorem app_layout_needs_rows :
  (forall s : list SummaryRow, app_layout [] s = Exn IndexError) /\
  (forall (df : DataFrame) (s : list SummaryRow) (layout : Layout),
     app_layout df s = Val layout ->
     df <> [] /\
     dd_options (fst (tab_temp layout)) <> [] /\
     dd_options (tab_anomaly layout) <> [] /\
     dd_options (fst (tab_polar layout)) <> [] /\
     dd_options (snd (tab_polar layout)) <> []).
Proof.
  split; [reflexivity|].
  intros df s layout Hl.
  assert (Hne : df <> []) by (intros ->; discriminate).
  split; [exact Hne|].
  destruct (app_layout_rows s Hne) as (c0 & cs & y0 & ys & Hc & Hy & E).
  rewrite E in Hl. injection Hl as <-. simpl.
  rewrite Hc, Hy. repeat split; discriminate.
Qed.

Lemma sorted_head_least (c0 : string) (cs : list string) (c : string) :
  StronglySorted key_lt (c0 :: cs) -> In c (c0 :: cs) ->
  (c0 <=? c)%string = true.
Proof.
  intros Hs Hin. inversion Hs as [|? ? _ Hall]; subst.
  unfold String.leb. destruct Hin as [<-|Hin].
  - now rewrite string_compare_refl.
  - rewrite Forall_forall in Hall. specialize (Hall c Hin).
    unfold key_lt, cmp, Ord_string in Hall. now rewrite Hall.
Qed.

(** X13. For a frame with rows, the controls start at known values: the
    three city dropdowns offer [cidades] and start at its least city; the
    slider runs from the least to the greatest year of the frame, every
    year of the frame lies within it, and it starts at the greatest year,
    as does the year dropdown of the polar tab. *)
Theorem app_layout_defaults (df : DataFrame) (s : list SummaryRow) :
  df <> [] ->
  exists l,
    app_layout df s = Val l /\
    dd_options (fst (tab_temp l)) = cidades df /\
    dd_options (tab_anomaly l) = cidades df /\
    dd_options (fst (tab_polar l)) = cidades df /\
    dd_options (snd (tab_polar l)) = anos df /\
    In (dd_value (fst (tab_temp l))) (cidades df) /\
    (forall r, In r df ->
               (dd_value (fst (tab_temp l)) <=? Row.cidade r)%string = true) /\
    dd_value (tab_anomaly l) = dd_value (fst (tab_temp l)) /\
    dd_value (fst (tab_polar l)) = dd_value (fst (tab_temp l)) /\
    In (sl_min (snd (tab_temp l))) (anos df) /\
    In (sl_max (snd (tab_temp l))) (anos df) /\
    (forall r, In r df ->
               (sl_min (snd (tab_temp l)) <= Row.year r <=
                sl_max (snd (tab_temp l)))%Z) /\
    sl_value (snd (tab_temp l)) = sl_max (snd (tab_temp l)) /\
    dd_value (snd (tab_polar l)) = sl_max (snd (tab_temp l)).
Proof.
  intros Hne.
  destruct (app_layout_rows s Hne) as (c0 & cs & y0 & ys & Hc & Hy & E).
  eexists. split; [exact E|]. cbn.
  pose proof (sorted_unique_sorted (map Row.cidade df)) as Hsorted.
  fold (cidades df) in Hsorted.
  destruct (fold_min_spec ys y0) as [Hmin_in Hmin].
  destruct (fold_max_spec ys y0) as [Hmax_in Hmax].
  repeat split; auto.
  - rewrite Hc. now left.
  - intros r Hr. rewrite Hc in Hsorted.
    apply (sorted_head_least Hsorted). rewrite <- Hc.
    apply cidades_In. now exists r.
  - now rewrite Hy.
  - now rewrite Hy.
  - apply Hmin. rewrite <- Hy. apply anos_In. now exists r.
  - apply Hmax. rewrite <- Hy. apply anos_In. now exists r.
Qed.

Lemma app_layout_defaults_witness :
  fortaleza <> [] /\
  exists l,
    app_layout fortaleza [] = Val l /\
    sl_value (snd (tab_temp l)) = sl_max (snd (tab_temp l)).
Proof.
  assert (H : fortaleza <> []) by discriminate.
  split; [exact H|].
  destruct (@app_layout_defaults fortaleza [] H) as (l & Hl & Hrest).
  exists l. split; [exact Hl|]. apply Hrest.
Defined.

(** *** Decimal numerals *)

Lemma to_int_not_nil (z : Z) :
  Z.to_int z <> Decimal.Pos Decimal.Nil /\ Z.to_int z <> Decimal.Neg Decimal.Nil.
Proof.
  destruct z as [|p|p]; simpl; split; try discriminate;
    intros [= E]; now apply Unsigned.to_uint_nonnil in E.
Qed.

(** [str] of an integer reads back as that integer. *)
Lemma parse_int_str_int (z : Z) : parse_int (str_int z) = Some z.
Proof.
  unfold parse_int, str_int.
  destruct (to_int_not_nil z) as [H1 H2].
  rewrite NilZero.isi by assumption. simpl. f_equal. apply DecimalZ.of_to.
Qed.

Lemma str_int_inj (a b : Z) : str_int a = str_int b -> a = b.
Proof.
  intros E. apply (f_equal parse_int) in E.
  rewrite !parse_int_str_int in E. congruence.
Qed.

Lemma NoDup_map_injective {A B : Type} (f : A -> B) (l : list A) :
  (forall a b, f a = f b -> a = b) -> NoDup l -> NoDup (map f l).
Proof.
  intros Hinj. induction 1 as [|a l Hnotin _ IH]; simpl; constructor; auto.
  intros Hin. apply in_map_iff in Hin as (b & E & Hb).
  apply Hinj in E. now subst.
Qed.

(** X14. The marks of the year slider: one for each known year, in
    ascending order; the label of a mark is the decimal numeral of its
    year, so it reads back as the year, and no two marks share a label. *)
Theorem slider_marks (df : DataFrame) (s : list SummaryRow) :
  df <> [] ->
  exists l,
    app_layout df s = Val l /\
    map fst (sl_marks (snd (tab_temp l))) = anos df /\
    Forall (fun m => parse_int (snd m) = Some (fst m))
           (sl_marks (snd (tab_temp l))) /\
    NoDup (map snd (sl_marks (snd (tab_temp l)))).
Proof.
  intros Hne.
  destruct (app_layout_rows s Hne) as (c0 & cs & y0 & ys & Hc & Hy & E).
  eexists. split; [exact E|]. cbn. split; [|split].
  - rewrite map_map. apply map_id.
  - apply Forall_forall. intros m Hm.
    apply in_map_iff in Hm as (a & <- & _). apply parse_int_str_int.
  - rewrite map_map. simpl.
    apply NoDup_map_injective.
    + intros a b. apply str_int_inj.
    + apply sorted_keys_NoDup, sorted_unique_sorted.
Qed.

Lemma slider_marks_witness :
  fortaleza <> [] /\
  exists l,
    app_layout fortaleza [] = Val l /\
    map fst (sl_marks (snd (tab_temp l))) = anos fortaleza.
Proof.
  assert (H : fortaleza <> []) by discriminate.
  split; [exact H|].
  destruct (@slider_marks fortaleza [] H) as (l & Hl & Hmarks & _).
  exists l. split; [exact Hl | exact Hmarks].
Defined.

(** *** [drop_duplicates] and the markers of the map *)

Lemma find_ext_eq {A : Type} (p q : A -> bool) (l : list A) :
  (forall x, p x = q x) -> find p l = find q l.
Proof.
  intros Hpq. induction l as [|x l IH]; simpl; [reflexivity|].
  now rewrite Hpq, IH.
Qed.

Lemma find_exists {A : Type} (p : A -> bool) (l : list A) (x : A) :
  In x l -> p x = true -> exists y, find p l = Some y.
Proof.
  intros Hin Hp. destruct (find p l) as [y|] eqn:E; [now exists y|].
  now rewrite (find_none _ _ E x Hin) in Hp.
Qed.

Lemma Subseq_map {A B : Type} (f : A -> B) (l1 l2 : list A) :
  Subseq l1 l2 -> Subseq (map f l1) (map f l2).
Proof. induction 1; simpl; now constructor. Qed.

Section DropDuplicates.
Context {K R : Type} `{OrdLaws K}.
Variable key : R -> K.

Local Abbreviation same_key r := (fun x => key_eqb (key x) (key r)).

(** A row stays when its key was not seen and it is the first row of its
    key. *)
Lemma drop_duplicates_from_In (r : R) (seen : list K) (rows : list R) :
  In r (drop_duplicates_from key seen rows) <->
  existsb (key_eqb (key r)) seen = false /\ find (same_key r) rows = Some r.
Proof.
  revert seen. induction rows as [|x rows IH]; intros seen; simpl.
  - split; [easy | now intros [_ E]].
  - destruct (key_eqb (key x) (key r)) eqn:Ex.
    + apply key_eqb_eq in Ex.
      destruct (existsb (key_eqb (key x)) seen) eqn:Eseen.
      * rewrite IH, <- Ex, Eseen. split; [now intros [E _] | now intros [E _]].
      * simpl. rewrite IH. simpl. rewrite <- Ex, key_eqb_refl. simpl.
        split.
        -- intros [->|[E _]]; [|discriminate]. auto.
        -- intros [_ [= ->]]. now left.
    + assert (Ex' : key_eqb (key r) (key x) = false).
      { apply key_eqb_neq. apply key_eqb_neq in Ex. congruence. }
      destruct (existsb (key_eqb (key x)) seen) eqn:Eseen.
      * apply IH.
      * simpl. rewrite IH. simpl. rewrite Ex'. simpl. split.
        -- intros [->|Hr]; [|exact Hr]. now rewrite key_eqb_refl in Ex.
        -- intros Hr. now right.
Qed.

Lemma drop_duplicates_from_NoDup (seen : list K) (rows : list R) :
  NoDup (map key (drop_duplicates_from key seen rows)).
Proof.
  revert seen. induction rows as [|x rows IH]; intros seen; simpl.
  - constructor.
  - destruct (existsb (key_eqb (key x)) seen); [apply IH|].
    simpl. constructor; [|apply IH].
    intros Hin. apply in_map_iff in Hin as (r & Hk & Hr).
    apply drop_duplicates_from_In in Hr as [Hseen _].
    simpl in Hseen. now rewrite Hk, key_eqb_refl in Hseen.
Qed.

Lemma drop_duplicates_from_Subseq (seen : list K) (rows : list R) :
  Subseq (drop_duplicates_from key seen rows) rows.
Proof.
  revert seen. induction rows as [|x rows IH]; intros seen; simpl.
  - constructor.
  - destruct (existsb (key_eqb (key x)) seen); now constructor.
Qed.

(** [drop_duplicates] keeps every key, once. *)
Lemma drop_duplicates_keys (k : K) (rows : list R) :
  In k (map key (drop_duplicates key rows)) <-> In k (map key rows).
Proof.
  unfold drop_duplicates. rewrite !in_map_iff. split.
  - intros (r & Hk & Hr). exists r. split; [exact Hk|].
    apply drop_duplicates_from_In in Hr as [_ Hfind].
    now apply find_some in Hfind.
  - intros (r & Hk & Hr).
    destruct (@find_exists _ (same_key r) rows r Hr (key_eqb_refl (key r)))
      as [r1 Hfind].
    pose proof (find_some _ _ Hfind) as [_ Hk1]. apply key_eqb_eq in Hk1.
    exists r1. split; [congruence|].
    apply drop_duplicates_from_In. split; [reflexivity|].
    rewrite <- Hfind. apply find_ext_eq. intros x. now rewrite Hk1.
Qed.
Lemma drop_duplicates_from_unseen (k : K) (seen : list K) (rows : list R) :
  In k (map key (drop_duplicates_from key seen rows)) ->
  existsb (key_eqb k) seen = false.
Proof.
  intros Hin. apply in_map_iff in Hin as (r & <- & Hr).
  now apply drop_duplicates_from_In in Hr as [Hseen _].
Qed.

(** Of two keys [drop_duplicates] keeps, the earlier one has occurred in
    the rows before the later one occurs at all. *)
Lemma drop_duplicates_from_order (seen : list K) (rows : list R)
    (l1 l2 l3 : list K) (a b : K) :
  map key (drop_duplicates_from key seen rows) =
    (l1 ++ a :: l2 ++ b :: l3)%list ->
  exists p q, map key rows = (p ++ q)%list /\ In a p /\ ~ In b p.
Proof.
  revert seen l1. induction rows as [|x rows IH]; intros seen l1 E.
  - destruct l1; discriminate.
  - assert (Hb : forall seen',
               map key (drop_duplicates_from key seen' rows) =
                 (l2 ++ b :: l3)%list \/
               (exists l0, map key (drop_duplicates_from key seen' rows) =
                             (l0 ++ a :: l2 ++ b :: l3)%list) ->
               existsb (key_eqb b) seen' = false).
    { intros seen' [E'|[l0 E']];
        apply drop_duplicates_from_unseen with (rows := rows);
        rewrite E'.
      - apply in_or_app. right. now left.
      - apply in_or_app. right. right. apply in_or_app. right. now left. }
    simpl in E. destruct (existsb (key_eqb (key x)) seen) eqn:Eseen.
    + destruct (IH seen l1 E) as (p & q & Hpq & Ha & Hnb).
      exists (key x :: p), q. simpl. rewrite Hpq.
      split; [reflexivity|]. split; [now right|].
      intros [Ex|Hin]; [|now apply Hnb].
      assert (Hs : existsb (key_eqb b) seen = false)
        by (apply Hb; right; now exists l1).
      now rewrite <- Ex, Eseen in Hs.
    + simpl in E. destruct l1 as [|k l1]; simpl in E; injection E as Ek E.
      * exists [key x], (map key rows). simpl.
        split; [reflexivity|]. split; [now left|].
        intros [Ex|[]].
        assert (Hs : existsb (key_eqb b) (key x :: seen) = false)
          by (apply Hb; now left).
        simpl in Hs. now rewrite <- Ex, key_eqb_refl in Hs.
      * destruct (IH (key x :: seen) l1 E) as (p & q & Hpq & Ha & Hnb).
        exists (key x :: p), q. simpl. rewrite Hpq.
        split; [reflexivity|]. split; [now right|].
        intros [Ex|Hin]; [|now apply Hnb].
        assert (Hs : existsb (key_eqb b) (key x :: seen) = false)
          by (apply Hb; right; now exists l1).
        simpl in Hs. now rewrite <- Ex, key_eqb_refl in Hs.
Qed.
End DropDuplicates.

(** X15. The map has one marker for each city of the frame: the tooltips
    are the known cities, each once, in the order the cities first appear
    in the frame (of two markers the earlier one's city occurs in the city
    column before the later one's city occurs at all), and a marker stands
    at the coordinates of the first row of its city. *)
Theorem station_markers_once (df : DataFrame) :
  NoDup (map mk_tooltip (station_markers df)) /\
  (forall c, In c (map mk_tooltip (station_markers df)) <-> In c (cidades df)) /\
  length (station_markers df) = length (cidades df) /\
  Subseq (map mk_tooltip (station_markers df)) (map Row.cidade df) /\
  (forall l1 a l2 b l3,
     map mk_tooltip (station_markers df) = (l1 ++ a :: l2 ++ b :: l3)%list ->
     exists p q,
       map Row.cidade df = (p ++ q)%list /\ In a p /\ ~ In b p) /\
  (forall m, In m (station_markers df) ->
     exists r,
       find (in_city (mk_tooltip m)) df = Some r /\
       mk_position m = (Row.Lat r, Row.Long r)).
Proof.
  assert (Htips : map mk_tooltip (station_markers df) =
                  map Row.cidade (drop_duplicates Row.cidade df)).
  { unfold station_markers. now rewrite map_map. }
  assert (Hnd : NoDup (map mk_tooltip (station_markers df))).
  { rewrite Htips. apply drop_duplicates_from_NoDup. }
  assert (Hmem : forall c, In c (map mk_tooltip (station_markers df)) <->
                           In c (cidades df)).
  { intros c. rewrite Htips, drop_duplicates_keys.
    unfold cidades. now rewrite sorted_unique_In. }
  split; [exact Hnd|]. split; [exact Hmem|]. split; [|split; [|split]].
  - rewrite <- (length_map mk_tooltip). apply Permutation_length.
    apply NoDup_Permutation; [exact Hnd | |exact Hmem].
    apply sorted_keys_NoDup, sorted_unique_sorted.
  - rewrite Htips. apply Subseq_map, drop_duplicates_from_Subseq.
  - intros l1 a l2 b l3 E. rewrite Htips in E.
    exact (@drop_duplicates_from_order _ _ _ _ Row.cidade [] df l1 l2 l3 a b E).
  - intros m Hm. unfold station_markers in Hm.
    apply in_map_iff in Hm as (r & <- & Hr). exists r. simpl.
    split; [|reflexivity].
    apply drop_duplicates_from_In in Hr as [_ Hfind].
    rewrite <- Hfind. apply find_ext_eq. intros x.
    unfold in_city. now rewrite key_eqb_string.
Qed.

(* ===================================================================== *)
(** ** Frames as objects: what a call leaves behind *)
(* ===================================================================== *)

Section HeapFacts.
Import Stateful.

Lemma nth_error_alloc (h : heap) (f : frame) :
  nth_error (h ++ [f]) (length h) = Some f.
Proof. now rewrite nth_error_app2, Nat.sub_diag by lia. Qed.

Lemma nth_error_old (h g : heap) (r : ref) (f : frame) :
  nth_error h r = Some f -> nth_error (h ++ g) r = Some f.
Proof.
  intros H. rewrite nth_error_app1; [exact H|].
  apply nth_error_Some. congruence.
Qed.

Lemma bind_val {A B : Type} (m : St A) (k : A -> St B) (h h' : heap) (a : A) :
  m h = Val (a, h') -> st_bind m k h = k a h'.
Proof. unfold st_bind. now intros ->. Qed.

Lemma read_run (h : heap) (r : ref) (f : frame) :
  nth_error h r = Some f -> read r h = Val (f, h).
Proof. unfold read. now intros ->. Qed.

Lemma write_last (h : heap) (f g : frame) :
  write (length h) f (h ++ [g])%list = Val (tt, (h ++ [f])%list).
Proof.
  unfold write.
  assert (Hlt : (length h <? length (h ++ [g]))%nat = true).
  { apply Nat.ltb_lt. rewrite length_app. simpl. lia. }
  rewrite Hlt.
  rewrite skipn_all2 by (rewrite length_app; simpl; lia).
  rewrite firstn_app, Nat.sub_diag, firstn_all. simpl.
  now rewrite app_nil_r.
Qed.
End HeapFacts.

Section PandasOnObjects.
Import Stateful StatefulPandas.

Lemma getitem_mask_run (h : heap) (r : ref) (rows : list Row.t)
    (mask : Row.t -> bool) :
  nth_error h r = Some (FObs rows) ->
  getitem_mask r mask h = Val (length h, (h ++ [FObs (filter mask rows)])%list).
Proof.
  intros H. unfold getitem_mask.
  erewrite bind_val by (apply read_run; exact H). reflexivity.
Qed.

Lemma copy_run (h : heap) (r : ref) (f : frame) :
  nth_error h r = Some f -> copy r h = Val (length h, (h ++ [f])%list).
Proof.
  intros H. unfold copy. erewrite bind_val by (apply read_run; exact H). reflexivity.
Qed.

Lemma column_index_run (h : heap) (r : ref) (rows : list Row.t) :
  nth_error h r = Some (FObs rows) ->
  column_index r h = Val (map Row.index rows, h).
Proof.
  intros H. unfold column_index. erewrite bind_val by (apply read_run; exact H). reflexivity.
Qed.

Lemma column_tempMed_run (h : heap) (r : ref) (rows : list Row.t) :
  nth_error h r = Some (FObs rows) ->
  column_tempMed r h = Val (map Row.tempMed rows, h).
Proof.
  intros H. unfold column_tempMed. erewrite bind_val by (apply read_run; exact H). reflexivity.
Qed.

Lemma column_means_run (h : heap) (r : ref) (rows : list (Z * float)) :
  nth_error h r = Some (FYearMean rows) ->
  column_tempMed r h = Val (map snd rows, h).
Proof.
  intros H. unfold column_tempMed. erewrite bind_val by (apply read_run; exact H). reflexivity.
Qed.

Lemma setitem_mes_run (h : heap) (rows : list Row.t) (values : list string) :
  length values = length rows ->
  setitem_mes (length h) values (h ++ [FObs rows])%list =
  Val (tt, (h ++ [FObsMes (combine rows values)])%list).
Proof.
  intros Hlen. unfold setitem_mes.
  erewrite bind_val by (apply read_run, nth_error_alloc).
  rewrite Hlen, Nat.eqb_refl. apply write_last.
Qed.

Lemma setitem_anomalia_run (h : heap) (rows : list (Z * float))
    (values : list float) :
  length values = length rows ->
  setitem_anomalia (length h) values (h ++ [FYearMean rows])%list =
  Val (tt,
       (h ++ [FAnomaly
                (map (fun p => mkAnomalyRow (fst (fst p)) (snd (fst p)) (snd p))
                     (combine rows values))])%list).
Proof.
  intros Hlen. unfold setitem_anomalia.
  erewrite bind_val by (apply read_run, nth_error_alloc).
  rewrite Hlen, Nat.eqb_refl. apply write_last.
Qed.

Lemma groupby_cidade_year_size_run (h : heap) (r : ref) (rows : list Row.t) :
  nth_error h r = Some (FObs rows) ->
  groupby_cidade_year_size r h =
  Val (length h,
       (h ++ [FSummary
                (map (fun g => mkSummaryRow (fst (fst g)) (snd (fst g)) (snd g))
                     (size (groupby (fun x => (Row.cidade x, Row.year x))
                                    rows)))])%list).
Proof.
  intros H. unfold groupby_cidade_year_size.
  erewrite bind_val by (apply read_run; exact H). reflexivity.
Qed.

Lemma groupby_year_mean_run (h : heap) (r : ref) (rows : list Row.t) :
  nth_error h r = Some (FObs rows) ->
  groupby_year_mean r h =
  Val (length h,
       (h ++ [FYearMean (group_mean Row.tempMed (groupby Row.year rows))])%list).
Proof.
  intros H. unfold groupby_year_mean. erewrite bind_val by (apply read_run; exact H). reflexivity.
Qed.

Lemma groupby_mes_size_run (h : heap) (r : ref)
    (rows : list (Row.t * string)) :
  nth_error h r = Some (FObsMes rows) ->
  groupby_mes_size r h =
  Val (length h, (h ++ [FMesCount (size (groupby snd rows))])%list).
Proof.
  intros H. unfold groupby_mes_size. erewrite bind_val by (apply read_run; exact H). reflexivity.
Qed.

Lemma merge_mes_run (h : heap) (l r : ref) (names : list string)
    (counts : list (string * nat)) :
  nth_error h l = Some (FMes names) ->
  nth_error h r = Some (FMesCount counts) ->
  merge_mes l r h =
  Val (length h, (h ++ [FMesCountNA (merge_left names counts)])%list).
Proof.
  intros Hl Hr. unfold merge_mes.
  erewrite bind_val by (apply read_run; exact Hl).
  erewrite bind_val by (apply read_run; exact Hr).
  reflexivity.
Qed.

Lemma fillna_frequencia_run (h : heap) (r : ref)
    (rows : list (string * option nat)) :
  nth_error h r = Some (FMesCountNA rows) ->
  fillna_frequencia r h = Val (length h, (h ++ [FMesCount (fillna0 rows)])%list).
Proof.
  intros H. unfold fillna_frequencia. erewrite bind_val by (apply read_run; exact H). reflexivity.
Qed.
End PandasOnObjects.

Section AggregatorsOnObjects.
Import Stateful.

Lemma combine_map_column {A B : Type} (f : A -> B) (l : list A) :
  combine l (map f l) = map (fun a => (a, f a)) l.
Proof. induction l as [|a l IH]; simpl; [reflexivity|now rewrite IH]. Qed.

Lemma anomaly_rows_combine (b : float) (gm : list (Z * float)) :
  map (fun p : Z * float * float =>
         mkAnomalyRow (fst (fst p)) (snd (fst p)) (snd p))
      (combine gm (map (fun m => (m - b)%float) (map snd gm))) =
  map (fun g => mkAnomalyRow (fst g) (snd g) (snd g - b)%float) gm.
Proof.
  induction gm as [|g gm IH]; simpl; [reflexivity|now rewrite IH].
Qed.

Lemma nth_error_result (h pre : heap) (out : frame) :
  nth_error (h ++ pre ++ [out]) (length h + length pre)%nat = Some out.
Proof.
  rewrite app_assoc, <- length_app. apply nth_error_alloc.
Qed.

(** An operation that, from every heap where [df] leads to the frame
    [input], builds the frames [pre] and then [out] beyond the end of the
    heap and returns the reference of [out], can be called again. *)
Lemma repeatable_of_run (op : St ref) (df : ref) (input out : frame)
    (pre : list frame) (h : heap) :
  (forall h' : heap,
     nth_error h' df = Some input ->
     op h' = Val ((length h' + length pre)%nat, (h' ++ pre ++ [out])%list)) ->
  nth_error h df = Some input ->
  repeatable op h out.
Proof.
  intros Hrun Hdf.
  assert (Hdf1 : nth_error (h ++ pre ++ [out]) df = Some input)
    by now apply nth_error_old.
  exists (length h + length pre)%nat, (h ++ pre ++ [out])%list,
         (length (h ++ pre ++ [out]) + length pre)%nat,
         ((h ++ pre ++ [out]) ++ pre ++ [out])%list.
  split; [now apply Hrun|]. split; [now apply Hrun|].
  split; [apply nth_error_None; lia|].
  split; [apply nth_error_None; lia|].
  split; [apply nth_error_result|].
  split; [apply nth_error_result|].
  split; [apply nth_error_old, nth_error_result|].
  intros r f Hr. split; [now apply nth_error_old|].
  now apply nth_error_old, nth_error_old.
Qed.

Lemma calculate_hw_summary_run (h : heap) (df : ref) (rows : DataFrame) :
  nth_error h df = Some (FObs rows) ->
  StatefulPandas.calculate_hw_summary df h =
  Val ((length h + 2)%nat,
       h ++ [FObs (filter is_hw rows); FObs (filter is_hw rows)] ++
       [FSummary
          (map (fun g => mkSummaryRow (fst (fst g)) (snd (fst g)) (snd g))
               (size (groupby (fun r => (Row.cidade r, Row.year r))
                              (filter is_hw rows))))])%list.
Proof.
  intros H. unfold StatefulPandas.calculate_hw_summary.
  erewrite bind_val by (apply getitem_mask_run; exact H).
  erewrite bind_val by (apply copy_run, nth_error_alloc).
  erewrite bind_val
    by (apply groupby_cidade_year_size_run, nth_error_alloc).
  unfold ret. rewrite !length_app, <- !app_assoc. simpl.
  now rewrite <- Nat.add_assoc.
Qed.

Lemma calculate_anomalies_run (h : heap) (df : ref) (rows : DataFrame)
    (cidade : string) :
  nth_error h df = Some (FObs rows) ->
  StatefulPandas.calculate_anomalies df cidade h =
  Val ((length h + 2)%nat,
       h ++ [FObs (filter (in_city cidade) rows);
             FObs (filter (in_city cidade) rows)] ++
       [FAnomaly
          (map (fun g =>
                  mkAnomalyRow (fst g) (snd g)
                    (snd g -
                     series_mean
                       (map Row.tempMed (filter (in_city cidade) rows)))%float)
               (group_mean Row.tempMed
                  (groupby Row.year (filter (in_city cidade) rows))))])%list.
Proof.
  intros H. unfold StatefulPandas.calculate_anomalies.
  erewrite bind_val by (apply getitem_mask_run; exact H).
  erewrite bind_val by (apply column_tempMed_run, nth_error_alloc).
  cbv zeta.
  erewrite bind_val
    by (apply getitem_mask_run, nth_error_old; exact H).
  erewrite bind_val by (apply groupby_year_mean_run, nth_error_alloc).
  erewrite bind_val by (apply column_means_run, nth_error_alloc).
  erewrite bind_val
    by (apply setitem_anomalia_run; now rewrite !length_map).
  unfold ret. rewrite !length_app, <- !app_assoc. simpl.
  rewrite <- Nat.add_assoc. simpl.
  now rewrite anomaly_rows_combine.
Qed.

Lemma calculate_hw_monthly_run (h : heap) (df : ref) (rows : DataFrame)
    (lc : Locale) (cidade : string) (ano : Z) :
  let sel := filter (fun r => in_city cidade r && in_year ano r && is_hw r)
                    rows in
  let dff := map (fun r => (r, strftime_B lc (Row.index r))) sel in
  nth_error h df = Some (FObs rows) ->
  StatefulPandas.calculate_hw_monthly lc df cidade ano h =
  Val ((length h + 5)%nat,
       h ++ [FObs sel; FObsMes dff; FMesCount (size (groupby snd dff));
             FMes all_months;
             FMesCountNA (merge_left all_months (size (groupby snd dff)))] ++
       [FMesCount
          (fillna0 (merge_left all_months (size (groupby snd dff))))])%list.
Proof.
  intros sel dff H. unfold StatefulPandas.calculate_hw_monthly.
  erewrite bind_val by (apply getitem_mask_run; exact H).
  erewrite bind_val by (apply copy_run, nth_error_alloc).
  erewrite bind_val by (apply column_index_run, nth_error_alloc).
  erewrite bind_val by (apply setitem_mes_run; now rewrite !length_map).
  rewrite map_map, combine_map_column.
  erewrite bind_val by (apply groupby_mes_size_run, nth_error_alloc).
  erewrite bind_val by reflexivity.
  erewrite bind_val
    by (apply merge_mes_run;
        [apply nth_error_alloc | apply nth_error_old, nth_error_alloc]).
  erewrite bind_val by (apply fillna_frequencia_run, nth_error_alloc).
  unfold ret. rewrite !length_app, <- !app_assoc. simpl.
  rewrite <- !Nat.add_assoc. reflexivity.
Qed.
End AggregatorsOnObjects.

(** C9. An aggregator called twice with the same arguments on the frame
    object [df], which nothing else touches, gives the same output both
    times.  The frame is an object on a heap, the aggregators run statement
    by statement on references: [df[mask]], [.copy()], [groupby], [merge]
    and [fillna] build new objects, and the assignments to the columns
    [mes] and [anomalia] write into the object they are given.  Each of the
    three aggregators returns at both calls; each call returns a new frame;
    both frames hold the rows the aggregator computes from the rows of
    [df], bit for bit; the second call leaves the result of the first as it
    was; and [df], with every other object that was there before, is after
    each call what it was before. *)
Theorem aggregators_repeatable (h : Stateful.heap) (df : Stateful.ref)
    (rows : DataFrame) (lc : Locale) (cidade : string) (ano : Z) :
  nth_error h df = Some (Stateful.FObs rows) ->
  (exists out,
     calculate_hw_summary rows = Returned out /\
     repeatable (StatefulPandas.calculate_hw_summary df) h
                (Stateful.FSummary out)) /\
  (exists out,
     calculate_anomalies rows cidade = Returned out /\
     repeatable (StatefulPandas.calculate_anomalies df cidade) h
                (Stateful.FAnomaly out)) /\
  (exists out,
     calculate_hw_monthly lc rows cidade ano = Returned out /\
     repeatable (StatefulPandas.calculate_hw_monthly lc df cidade ano) h
                (Stateful.FMesCount
                   (map (fun row => (mes row, frequencia row)) out))).
Proof.
  intros Hdf. split; [|split].
  - eexists. split; [reflexivity|].
    apply repeatable_of_run
      with (df := df) (input := Stateful.FObs rows)
           (pre := [Stateful.FObs (filter is_hw rows);
                    Stateful.FObs (filter is_hw rows)]);
      [|exact Hdf].
    intros h' Hh'. now apply calculate_hw_summary_run.
  - eexists. split; [reflexivity|].
    apply repeatable_of_run
      with (df := df) (input := Stateful.FObs rows)
           (pre := [Stateful.FObs (filter (in_city cidade) rows);
                    Stateful.FObs (filter (in_city cidade) rows)]);
      [|exact Hdf].
    intros h' Hh'. now apply calculate_anomalies_run.
  - eexists. split; [reflexivity|].
    rewrite map_map. cbn [mes frequencia].
    rewrite map_ext with (g := fun kv => kv) by (now intros [m n]).
    rewrite map_id.
    set (sel := filter (fun r => in_city cidade r && in_year ano r && is_hw r)
                       rows).
    set (dff := map (fun r => (r, strftime_B lc (Row.index r))) sel).
    apply repeatable_of_run
      with (df := df) (input := Stateful.FObs rows)
           (pre := [Stateful.FObs sel; Stateful.FObsMes dff;
                    Stateful.FMesCount (size (groupby snd dff));
                    Stateful.FMes all_months;
                    Stateful.FMesCountNA
                      (merge_left all_months (size (groupby snd dff)))]);
      [|exact Hdf].
    intros h' Hh'.
    exact (@calculate_hw_monthly_run h' df rows lc cidade ano Hh').
Qed.

Lemma aggregators_repeatable_witness :
  nth_error [Stateful.FObs recife] 0%nat = Some (Stateful.FObs recife) /\
  (exists out,
     calculate_hw_summary recife = Returned out /\
     repeatable (StatefulPandas.calculate_hw_summary 0%nat) [Stateful.FObs recife]
                (Stateful.FSummary out)) /\
  (exists out,
     calculate_anomalies recife "Recife" = Returned out /\
     repeatable (StatefulPandas.calculate_anomalies 0%nat "Recife")
                [Stateful.FObs recife] (Stateful.FAnomaly out)) /\
  (exists out,
     calculate_hw_monthly C_locale recife "Recife" 2020%Z = Returned out /\
     repeatable (StatefulPandas.calculate_hw_monthly C_locale 0%nat "Recife"
                                                     2020%Z)
                [Stateful.FObs recife]
                (Stateful.FMesCount
                   (map (fun row => (mes row, frequencia row)) out))).
Proof.
  split; [reflexivity|].
  exact (@aggregators_repeatable [Stateful.FObs recife] 0%nat recife C_locale
           "Recife" 2020%Z eq_refl).
Defined.
